(** * Meeting summarizer backend: a shallow embedding in Rocq

    Files embedded:
    - backend/app/services/summarization.py : [extract_json_text], [summarize_meeting]
    - backend/app/models/schemas.py         : [MeetingSummary] and its validation
    - backend/app/db.py                     : the transcripts table as a gmap,
      [create_transcript], [update_transcript], [get_transcript],
      [list_transcripts], [count_transcripts], [update_transcript_name],
      [delete_transcript]
    - backend/app/main.py                   : [_save_upload_file],
      [_update_transcription_job], [_run_transcription_job],
      [process_meeting], [start_transcription], [get_transcription],
      [list_transcripts], [get_transcript], [update_transcript],
      [delete_transcript], [summarize_existing_transcript]
    - backend/app/services/transcription.py : [_get_model], [preload_models],
      [transcribe_audio]
    - backend/app/config.py                 : [max_file_size_mb], [allowed_extensions]

    Python [str] values are modelled as lists of characters with code
    points below 256 (Latin-1). *)

From Stdlib Require Import Ascii String List ZArith Lia Bool.
From Stdlib Require QArith_base.
From stdpp Require Import base gmap strings sorting.
Import ListNotations.

Set Warnings "-register-all".

(** ** Python strings *)

Definition pystr := list ascii.

(** Literal helper: a Rocq string literal as a Python [str]. *)
Definition s_ (s : string) : pystr := list_ascii_of_string s.

(** The double-quote character. *)
Definition dq : ascii := ascii_of_nat 34.

(** Literal helper for texts holding double quotes, written as ['] in the literal. *)
Definition q_ (s : string) : pystr :=
  map (fun c => if Ascii.eqb c "'"%char then dq else c) (list_ascii_of_string s).

Definition ord (c : ascii) : nat := nat_of_ascii c.

Definition ceqb (a b : ascii) : bool := Ascii.eqb a b.

(** [str.isspace] on code points below 256: \t \n \v \f \r, 0x1c..0x1f,
    space, U+0085 and U+00A0. *)
Definition py_isspace (c : ascii) : bool :=
  let n := ord c in
  ((9 <=? n) && (n <=? 13)) || ((28 <=? n) && (n <=? 32)) || (n =? 133) || (n =? 160).

Fixpoint py_lstrip (s : pystr) : pystr :=
  match s with
  | c :: r => if py_isspace c then py_lstrip r else s
  | [] => []
  end.

(** [str.strip()] *)
Definition py_strip (s : pystr) : pystr := rev (py_lstrip (rev (py_lstrip s))).

Fixpoint prefixb (p s : pystr) : bool :=
  match p, s with
  | [], _ => true
  | a :: p', b :: s' => ceqb a b && prefixb p' s'
  | _ :: _, [] => false
  end.

(** First index [>= i] (counting from [i] at the head of [s]) where [sub] occurs. *)
Fixpoint find_at (sub s : pystr) (i : nat) : option nat :=
  if prefixb sub s then Some i
  else match s with
       | [] => None
       | _ :: r => find_at sub r (S i)
       end.

(** Normalisation of a slice bound, as CPython does for [s[a:b]]. *)
Definition norm_index (len : nat) (i : Z) : Z :=
  if (i <? 0)%Z then Z.max 0 (i + Z.of_nat len) else Z.min i (Z.of_nat len).

(** [s.find(sub, start)]: -1 when absent. *)
Definition py_find (s sub : pystr) (start : Z) : Z :=
  let st := if (start <? 0)%Z then Z.max 0 (start + Z.of_nat (length s)) else start in
  if (Z.of_nat (length s) <? st)%Z then (-1)%Z
  else match find_at sub (skipn (Z.to_nat st) s) (Z.to_nat st) with
       | Some i => Z.of_nat i
       | None => (-1)%Z
       end.

(** [sub in s] *)
Definition py_contains (s sub : pystr) : bool :=
  match find_at sub s 0 with Some _ => true | None => false end.

(** [s[a:b]] *)
Definition py_slice (s : pystr) (a b : Z) : pystr :=
  let a' := norm_index (length s) a in
  let b' := norm_index (length s) b in
  firstn (Z.to_nat (b' - a')) (skipn (Z.to_nat a') s).

(** ** Python's [json] module

    Values as [json.loads] builds them.  A JSON object keeps its member
    pairs in source order (the dict built from them keeps the last value
    of a repeated key, see [dict_get]); a number keeps its lexeme, since
    no field of the schemas below is numeric. *)

Inductive json : Type :=
| JNull
| JBool (b : bool)
| JNum (lexeme : pystr)
| JStr (s : pystr)
| JArr (l : list json)
| JObj (l : list (pystr * json)).

(** JSON whitespace: [ \t\n\r]. *)
Definition is_json_ws (c : ascii) : bool :=
  ceqb c " " || ceqb c "009" || ceqb c "010" || ceqb c "013".

Fixpoint skip_ws (s : pystr) : pystr :=
  match s with
  | c :: r => if is_json_ws c then skip_ws r else s
  | [] => []
  end.

Definition is_digit (c : ascii) : bool := (48 <=? ord c) && (ord c <=? 57).

Definition hex_val (c : ascii) : option nat :=
  let n := ord c in
  if (48 <=? n) && (n <=? 57) then Some (n - 48)
  else if (97 <=? n) && (n <=? 102) then Some (n - 87)
  else if (65 <=? n) && (n <=? 70) then Some (n - 55)
  else None.

(** [\uXXXX]; a code point above 255, outside the alphabet of the model,
    is refused. *)
Definition decode_u (a b c d : ascii) : option ascii :=
  match hex_val a, hex_val b, hex_val c, hex_val d with
  | Some x1, Some x2, Some x3, Some x4 =>
      let n := ((x1 * 16 + x2) * 16 + x3) * 16 + x4 in
      if n <? 256 then Some (ascii_of_nat n) else None
  | _, _, _, _ => None
  end.

(** The one-character escapes of [json.decoder.BACKSLASH]. *)
Definition simple_escape (e : ascii) : option ascii :=
  if ceqb e dq then Some dq
  else if ceqb e "\" then Some ("\"%char)
  else if ceqb e "/" then Some ("/"%char)
  else if ceqb e "b" then Some ("008"%char)
  else if ceqb e "f" then Some ("012"%char)
  else if ceqb e "n" then Some ("010"%char)
  else if ceqb e "r" then Some ("013"%char)
  else if ceqb e "t" then Some ("009"%char)
  else None.

(** [scanstring] with [strict=True], started after the opening quote:
    the decoded text and what follows the closing quote. *)
Fixpoint scan_string (s : pystr) : option (pystr * pystr) :=
  match s with
  | [] => None
  | c :: r =>
      if ceqb c dq then Some ([], r)
      else if ceqb c "\" then
        match r with
        | [] => None
        | e :: r' =>
            if ceqb e "u" then
              match r' with
              | h1 :: h2 :: h3 :: h4 :: r'' =>
                  match decode_u h1 h2 h3 h4, scan_string r'' with
                  | Some ch, Some (t, rest) => Some (ch :: t, rest)
                  | _, _ => None
                  end
              | _ => None
              end
            else
              match simple_escape e, scan_string r' with
              | Some ch, Some (t, rest) => Some (ch :: t, rest)
              | _, _ => None
              end
        end
      else if ord c <? 32 then None
      else
        match scan_string r with
        | Some (t, rest) => Some (c :: t, rest)
        | None => None
        end
  end.

Fixpoint digits (s : pystr) : pystr * pystr :=
  match s with
  | c :: r => if is_digit c then let '(d, r') := digits r in (c :: d, r') else ([], s)
  | [] => ([], [])
  end.

(** [json.scanner.NUMBER_RE]: optional minus, then 0 or a nonzero digit and digits, an optional fraction of one or more digits, an optional exponent. *)
Definition match_int (s : pystr) : option (pystr * pystr) :=
  let '(sign, s1) := match s with
                     | c :: r => if ceqb c "-" then ([c], r) else ([], s)
                     | [] => ([], [])
                     end in
  match s1 with
  | c :: r =>
      if ceqb c "0" then Some (sign ++ [c], r)
      else if is_digit c then let '(d, r') := digits r in Some (sign ++ c :: d, r')
      else None
  | [] => None
  end.

Definition match_frac (s : pystr) : pystr * pystr :=
  match s with
  | c :: r =>
      if ceqb c "." then
        match digits r with
        | ([], _) => ([], s)
        | (d, r') => (c :: d, r')
        end
      else ([], s)
  | [] => ([], [])
  end.

Definition match_exp (s : pystr) : pystr * pystr :=
  match s with
  | e :: r =>
      if ceqb e "e" || ceqb e "E" then
        let '(sg, r1) := match r with
                         | c :: r0 => if ceqb c "+" || ceqb c "-" then ([c], r0) else ([], r)
                         | [] => ([], [])
                         end in
        match digits r1 with
        | ([], _) => ([], s)
        | (d, r2) => (e :: sg ++ d, r2)
        end
      else ([], s)
  | [] => ([], [])
  end.

Definition match_number (s : pystr) : option (pystr * pystr) :=
  match match_int s with
  | None => None
  | Some (i, r1) =>
      let '(f, r2) := match_frac r1 in
      let '(e, r3) := match_exp r2 in
      Some (i ++ f ++ e, r3)
  end.

(** [scan_once], [JSONArray] and [JSONObject] of [json.decoder], with a
    fuel argument; [json_loads] gives one unit of fuel per input character,
    which is enough since every nesting level and every member consumes at
    least one character. *)
Fixpoint scan_once (n : nat) (s : pystr) {struct n} : option (json * pystr) :=
  match n with
  | O => None
  | S n' =>
      match s with
      | c :: r =>
          if ceqb c dq then
            match scan_string r with
            | Some (t, r') => Some (JStr t, r')
            | None => None
            end
          else if ceqb c "{" then
            match skip_ws r with
            | c1 :: r1 =>
                if ceqb c1 "}" then Some (JObj [], r1)
                else if ceqb c1 dq then object_members n' r1 []
                else None
            | [] => None
            end
          else if ceqb c "[" then
            match skip_ws r with
            | c1 :: r1 =>
                if ceqb c1 "]" then Some (JArr [], r1)
                else array_elems n' (c1 :: r1) []
            | [] => None
            end
          else if prefixb (s_ "null") s then Some (JNull, skipn 4 s)
          else if prefixb (s_ "true") s then Some (JBool true, skipn 4 s)
          else if prefixb (s_ "false") s then Some (JBool false, skipn 5 s)
          else match match_number s with
               | Some (lex, r') => Some (JNum lex, r')
               | None =>
                   if prefixb (s_ "NaN") s then Some (JNum (s_ "NaN"), skipn 3 s)
                   else if prefixb (s_ "Infinity") s then Some (JNum (s_ "Infinity"), skipn 8 s)
                   else if prefixb (s_ "-Infinity") s then Some (JNum (s_ "-Infinity"), skipn 9 s)
                   else None
               end
      | [] => None
      end
  end
with array_elems (n : nat) (s : pystr) (acc : list json) {struct n} : option (json * pystr) :=
  match n with
  | O => None
  | S n' =>
      match scan_once n' s with
      | None => None
      | Some (v, r) =>
          match skip_ws r with
          | c :: r' =>
              if ceqb c "]" then Some (JArr (rev (v :: acc)), r')
              else if ceqb c "," then array_elems n' (skip_ws r') (v :: acc)
              else None
          | [] => None
          end
      end
  end
with object_members (n : nat) (s : pystr) (acc : list (pystr * json)) {struct n}
  : option (json * pystr) :=
  (* [s] starts after the opening quote of a key *)
  match n with
  | O => None
  | S n' =>
      match scan_string s with
      | None => None
      | Some (key, r) =>
          match skip_ws r with
          | c :: r1 =>
              if ceqb c ":" then
                match scan_once n' (skip_ws r1) with
                | None => None
                | Some (v, r2) =>
                    match skip_ws r2 with
                    | c2 :: r3 =>
                        if ceqb c2 "}" then Some (JObj (rev ((key, v) :: acc)), r3)
                        else if ceqb c2 "," then
                          match skip_ws r3 with
                          | c3 :: r4 =>
                              if ceqb c3 dq then object_members n' r4 ((key, v) :: acc)
                              else None
                          | [] => None
                          end
                        else None
                    | [] => None
                    end
                end
              else None
          | [] => None
          end
      end
  end.

(** [json.loads(s)]: [None] stands for [json.JSONDecodeError]. *)
Definition json_loads (s : pystr) : option json :=
  match scan_once (S (length s)) (skip_ws s) with
  | Some (v, r) => match skip_ws r with [] => Some v | _ => None end
  | None => None
  end.

(** [json.dumps] with its defaults ([ensure_ascii=True], separators
    [", "] and [": "]). *)
Definition hexdig (n : nat) : ascii :=
  if n <? 10 then ascii_of_nat (48 + n) else ascii_of_nat (87 + n).

Definition escape_char (c : ascii) : pystr :=
  if ceqb c dq then ["\"%char; dq]
  else if ceqb c "\" then ["\"%char; "\"%char]
  else if ceqb c "010" then ["\"%char; "n"%char]
  else if ceqb c "013" then ["\"%char; "r"%char]
  else if ceqb c "009" then ["\"%char; "t"%char]
  else if ceqb c "008" then ["\"%char; "b"%char]
  else if ceqb c "012" then ["\"%char; "f"%char]
  else if (ord c <? 32) || (126 <? ord c) then
    ["\"%char; "u"%char; "0"%char; "0"%char; hexdig (ord c / 16); hexdig (ord c mod 16)]
  else [c].

Definition encode_string (t : pystr) : pystr :=
  dq :: flat_map escape_char t ++ [dq].

Fixpoint dumps (v : json) : pystr :=
  match v with
  | JNull => s_ "null"
  | JBool true => s_ "true"
  | JBool false => s_ "false"
  | JNum lex => lex
  | JStr t => encode_string t
  | JArr l =>
      "["%char ::
        (fix items (l : list json) : pystr :=
           match l with
           | [] => []
           | [x] => dumps x
           | x :: r => dumps x ++ s_ ", " ++ items r
           end) l ++ ["]"%char]
  | JObj l =>
      "{"%char ::
        (fix members (l : list (pystr * json)) : pystr :=
           match l with
           | [] => []
           | [(k, x)] => encode_string k ++ s_ ": " ++ dumps x
           | (k, x) :: r => encode_string k ++ s_ ": " ++ dumps x ++ s_ ", " ++ members r
           end) l ++ ["}"%char]
  end.

(** ** summarization.py: extraction of the JSON text (lines 42-52) *)

Definition extract_json_text (response_text : pystr) : pystr :=
  if py_contains response_text (s_ "```json") then
    let json_start := (py_find response_text (s_ "```json") 0 + 7)%Z in
    let json_end := py_find response_text (s_ "```") json_start in
    py_strip (py_slice response_text json_start json_end)
  else if py_contains response_text (s_ "```") then
    let json_start := (py_find response_text (s_ "```") 0 + 3)%Z in
    let json_end0 := py_find response_text (s_ "```") json_start in
    let json_end := if (json_end0 =? -1)%Z then Z.of_nat (length response_text) else json_end0 in
    py_strip (py_slice response_text json_start json_end)
  else response_text.

(** ** Exceptions

    An exception is its class; [str(e)], which the code stores in the
    [error] fields, is modelled by [str_exc]. *)

Inductive exc : Type :=
| JSONDecodeError                 (* json.loads *)
| ValidationError                 (* pydantic *)
| TypeError                       (* f( **x ) with x not a mapping, or a repeated keyword *)
| ProviderError (msg : pystr)     (* anthropic client: transport, auth, ... *)
| TranscriptionFailure (msg : pystr) (* faster-whisper: unreadable audio, engine fault *)
| OperationalError                (* sqlite3: database unavailable or locked *)
| IntegrityError                  (* sqlite3: repeated primary key *)
| HTTPException (status_code : nat). (* fastapi *)

Definition str_exc (e : exc) : pystr :=
  match e with
  | JSONDecodeError => s_ "JSONDecodeError"
  | ValidationError => s_ "ValidationError"
  | TypeError => s_ "TypeError"
  | ProviderError m => m
  | TranscriptionFailure m => m
  | OperationalError => s_ "OperationalError"
  | IntegrityError => s_ "IntegrityError"
  | HTTPException _ => s_ "HTTPException"
  end.

Inductive result (A : Type) : Type :=
| Ok (a : A)
| Err (e : exc).
Arguments Ok {A} a.
Arguments Err {A} e.

(** ** models/schemas.py *)

Module Schemas.

Record Participant := mkParticipant {
  name : option pystr;
  role : option pystr }.

Record ActionItem := mkActionItem {
  task : pystr;
  assignee : option pystr;
  deadline : option pystr }.

Record Decision := mkDecision {
  description : pystr;
  context : option pystr }.

Record MeetingSummary := mkMeetingSummary {
  title : pystr;
  summary : pystr;
  participants : option (list Participant);
  key_points : option (list pystr);
  decisions : option (list Decision);
  action_items : option (list ActionItem);
  transcript : pystr }.

(** [dict(pairs)[k]]: the last value given for [k]. *)
Definition dict_get (k : pystr) (d : list (pystr * json)) : option json :=
  fold_left (fun acc '(k', v) => if bool_decide (k = k') then Some v else acc) d None.

(** Field validators of pydantic (lax mode, as for a Python dict input). *)
Definition v_str (o : option json) : option pystr :=
  match o with Some (JStr s) => Some s | _ => None end.

Definition v_opt_str (o : option json) : option (option pystr) :=
  match o with
  | None | Some JNull => Some None
  | Some (JStr s) => Some (Some s)
  | Some _ => None
  end.

Fixpoint v_list {A} (f : json -> option A) (l : list json) : option (list A) :=
  match l with
  | [] => Some []
  | x :: r =>
      match f x, v_list f r with
      | Some a, Some l' => Some (a :: l')
      | _, _ => None
      end
  end.

Definition v_opt_list {A} (f : json -> option A) (o : option json) : option (option (list A)) :=
  match o with
  | None | Some JNull => Some None
  | Some (JArr l) => match v_list f l with Some l' => Some (Some l') | None => None end
  | Some _ => None
  end.

Definition v_str_item (j : json) : option pystr := v_str (Some j).

Definition v_participant (j : json) : option Participant :=
  match j with
  | JObj d =>
      n ← v_opt_str (dict_get (s_ "name") d);
      r ← v_opt_str (dict_get (s_ "role") d);
      Some (mkParticipant n r)
  | _ => None
  end.

Definition v_decision (j : json) : option Decision :=
  match j with
  | JObj d =>
      ds ← v_str (dict_get (s_ "description") d);
      c ← v_opt_str (dict_get (s_ "context") d);
      Some (mkDecision ds c)
  | _ => None
  end.

Definition v_action_item (j : json) : option ActionItem :=
  match j with
  | JObj d =>
      t ← v_str (dict_get (s_ "task") d);
      a ← v_opt_str (dict_get (s_ "assignee") d);
      dl ← v_opt_str (dict_get (s_ "deadline") d);
      Some (mkActionItem t a dl)
  | _ => None
  end.

(** [MeetingSummary( **kwargs)]: unknown keys are ignored, a missing
    optional field is [None]. *)
Definition meeting_summary_of_kwargs (d : list (pystr * json)) : option MeetingSummary :=
  t ← v_str (dict_get (s_ "title") d);
  s ← v_str (dict_get (s_ "summary") d);
  p ← v_opt_list v_participant (dict_get (s_ "participants") d);
  k ← v_opt_list v_str_item (dict_get (s_ "key_points") d);
  ds ← v_opt_list v_decision (dict_get (s_ "decisions") d);
  a ← v_opt_list v_action_item (dict_get (s_ "action_items") d);
  tr ← v_str (dict_get (s_ "transcript") d);
  Some (mkMeetingSummary t s p k ds a tr).

(** [model_dump()], as a JSON value (keys in field order). *)
Definition dump_opt_str (o : option pystr) : json :=
  match o with Some s => JStr s | None => JNull end.

Definition dump_opt_list {A} (f : A -> json) (o : option (list A)) : json :=
  match o with Some l => JArr (map f l) | None => JNull end.

Definition dump_participant (p : Participant) : json :=
  JObj [(s_ "name", dump_opt_str (name p)); (s_ "role", dump_opt_str (role p))].

Definition dump_decision (x : Decision) : json :=
  JObj [(s_ "description", JStr (description x)); (s_ "context", dump_opt_str (context x))].

Definition dump_action_item (x : ActionItem) : json :=
  JObj [(s_ "task", JStr (task x)); (s_ "assignee", dump_opt_str (assignee x));
        (s_ "deadline", dump_opt_str (deadline x))].

Definition model_dump (m : MeetingSummary) : json :=
  JObj [(s_ "title", JStr (title m));
        (s_ "summary", JStr (summary m));
        (s_ "participants", dump_opt_list dump_participant (participants m));
        (s_ "key_points", dump_opt_list JStr (key_points m));
        (s_ "decisions", dump_opt_list dump_decision (decisions m));
        (s_ "action_items", dump_opt_list dump_action_item (action_items m));
        (s_ "transcript", JStr (transcript m))].

(** [json.dumps(summary.model_dump())], as main.py stores it. *)
Definition serialize (m : MeetingSummary) : pystr := dumps (model_dump m).

(** Reading a stored summary back: [MeetingSummary( **json.loads(s))]. *)
Definition deserialize (s : pystr) : option MeetingSummary :=
  match json_loads s with
  | Some (JObj d) => meeting_summary_of_kwargs d
  | _ => None
  end.

End Schemas.
Import Schemas.

(** ** db.py: the [transcripts] table

    The table is a finite map from [id] to its row.  [up = false] models a
    database that cannot be opened or is locked: every statement raises
    [sqlite3.OperationalError]. *)

Module Db.

Record Row := mkRow {
  created_at : pystr;
  original_filename : pystr;
  display_name : pystr;
  model : pystr;
  status : pystr;
  transcript : option pystr;
  summary_json : option pystr;
  error : option pystr }.

Record Store := mkStore {
  rows : gmap pystr Row;
  up : bool }.

Definition with_rows (db : Store) (m : gmap pystr Row) : Store := mkStore m (up db).

(** [create_transcript]: [transcript_id] is the [uuid4().hex] drawn by the
    call and [now] the [CURRENT_TIMESTAMP] default of [created_at].  A
    repeated primary key makes the INSERT fail. *)
Definition create_transcript (transcript_id now original_filename model status : pystr)
    (db : Store) : result pystr * Store :=
  if negb (up db) then (Err OperationalError, db)
  else match rows db !! transcript_id with
       | Some _ => (Err IntegrityError, db)
       | None =>
           (Ok transcript_id,
            with_rows db (<[transcript_id :=
              mkRow now original_filename original_filename model status None None None]>
              (rows db)))
       end.

Definition merge_field (new old : option pystr) : option pystr :=
  match new with Some v => Some v | None => old end.

(** The row after [UPDATE transcripts SET ...] with the supplied fields. *)
Definition set_fields (st tr sj er : option pystr) (r : Row) : Row :=
  mkRow (created_at r) (original_filename r) (display_name r) (model r)
        (match st with Some s => s | None => status r end)
        (merge_field tr (transcript r)) (merge_field sj (summary_json r))
        (merge_field er (error r)).

(** [update_transcript(transcript_id, status, transcript, summary_json, error)];
    [None] is an argument left at its default [None]. *)
Definition update_transcript (transcript_id : pystr) (st tr sj er : option pystr)
    (db : Store) : result bool * Store :=
  match st, tr, sj, er with
  | None, None, None, None => (Ok false, db)          (* if not updates: return False *)
  | _, _, _, _ =>
      if negb (up db) then (Err OperationalError, db)
      else match rows db !! transcript_id with
           | None => (Ok false, db)                    (* rowcount = 0 *)
           | Some r => (Ok true, with_rows db (<[transcript_id := set_fields st tr sj er r]> (rows db)))
           end
  end.

Definition get_transcript (transcript_id : pystr) (db : Store) : result (option Row) * Store :=
  if negb (up db) then (Err OperationalError, db) else (Ok (rows db !! transcript_id), db).

Definition update_transcript_name (transcript_id new_name : pystr) (db : Store)
    : result bool * Store :=
  if negb (up db) then (Err OperationalError, db)
  else match rows db !! transcript_id with
       | None => (Ok false, db)
       | Some r =>
           (Ok true, with_rows db (<[transcript_id :=
              mkRow (created_at r) (original_filename r) new_name (model r) (status r)
                    (transcript r) (summary_json r) (error r)]> (rows db)))
       end.

Definition delete_transcript (transcript_id : pystr) (db : Store) : result bool * Store :=
  if negb (up db) then (Err OperationalError, db)
  else match rows db !! transcript_id with
       | None => (Ok false, db)
       | Some _ => (Ok true, with_rows db (delete transcript_id (rows db)))
       end.

(** [list_transcripts]: the columns the SELECT reads. *)
Record ListItem := mkListItem {
  li_id : pystr;
  li_created_at : pystr;
  li_original_filename : pystr;
  li_display_name : pystr;
  li_model : pystr;
  li_status : pystr;
  li_error : option pystr }.

Definition list_item (p : pystr * Row) : ListItem :=
  let '(id, r) := p in
  mkListItem id (created_at r) (original_filename r) (display_name r) (model r) (status r) (error r).

(** SQLite compares TEXT with the BINARY collation: bytewise on the UTF-8
    encoding, which for code points below 256 orders them by code point,
    a proper prefix first. *)
Fixpoint text_leb (a b : pystr) : bool :=
  match a, b with
  | [], _ => true
  | _ :: _, [] => false
  | x :: a', y :: b' => (ord x <? ord y) || ((ord x =? ord y) && text_leb a' b')
  end.

(** [ORDER BY created_at DESC]: [a] may come before [b].  SQLite leaves the
    order of equal timestamps unspecified; a sort by this relation picks one. *)
Definition newer_first (a b : pystr * Row) : Prop :=
  text_leb (created_at (snd b)) (created_at (snd a)) = true.

Global Instance newer_first_dec : RelDecision newer_first.
Proof. intros a b. unfold newer_first. apply _. Defined.

(** [LIMIT ? OFFSET ?]: a negative LIMIT sets no bound, a negative OFFSET
    counts as 0. *)
Definition limit_offset {A} (limit offset : Z) (l : list A) : list A :=
  let l' := drop (Z.to_nat offset) l in
  if (limit <? 0)%Z then l' else take (Z.to_nat limit) l'.

Definition list_transcripts (limit offset : Z) (db : Store) : result (list ListItem) * Store :=
  if negb (up db) then (Err OperationalError, db)
  else (Ok (map list_item
              (limit_offset limit offset (merge_sort newer_first (map_to_list (rows db))))), db).

Definition count_transcripts (db : Store) : result nat * Store :=
  if negb (up db) then (Err OperationalError, db) else (Ok (size (rows db)), db).

End Db.

(** ** main.py: the process state and the handlers' monad *)

(** An entry of [_transcription_jobs]. *)
Record Job := mkJob {
  job_status : pystr;
  job_data : option MeetingSummary;
  job_error : option pystr }.

(** [job_history] lists every value written into [_transcription_jobs],
    oldest first, with its key: the sequence of states a poller can
    observe.  [provider_calls] lists the transcripts sent to the LLM
    provider. *)
Record World := mkWorld {
  store : Db.Store;
  jobs : gmap pystr Job;
  job_history : list (pystr * Job);
  provider_calls : list pystr }.

Definition M (A : Type) : Type := World -> result A * World.

Definition ret {A} (a : A) : M A := fun w => (Ok a, w).

Definition bind {A B} (m : M A) (k : A -> M B) : M B :=
  fun w => match m w with
           | (Ok a, w') => k a w'
           | (Err e, w') => (Err e, w')
           end.

Definition raise {A} (e : exc) : M A := fun w => (Err e, w).

(** [try: m except Exception as e: h(e)] *)
Definition try_except {A} (m : M A) (h : exc -> M A) : M A :=
  fun w => match m w with
           | (Err e, w') => h e w'
           | r => r
           end.

Notation "'let*' x ':=' m 'in' k" := (bind m (fun x => k))
  (at level 200, x name, m at level 100, k at level 200).

(** A [db.*] call on the world's store. *)
Definition on_db {A} (f : Db.Store -> result A * Db.Store) : M A :=
  fun w => let '(r, db') := f (store w) in
           (r, mkWorld db' (jobs w) (job_history w) (provider_calls w)).

(** ** The external collaborators

    [engine_segments]: what [model.transcribe] yields for the uploaded
    file (the texts of its segments, in order) or the failure of the model
    load or of the inference.  [provider]: the answer of
    [client.messages.create] for a transcript, as its content blocks ([Some
    text] for a text block), or the client's failure. *)
Record Env := mkEnv {
  engine_segments : result (list pystr);
  provider : pystr -> result (list (option pystr)) }.

Definition AVAILABLE_MODELS : list pystr := [s_ "base"; s_ "small"; s_ "large-v3"].

Definition py_in (x : pystr) (l : list pystr) : bool := existsb (fun y => bool_decide (x = y)) l.

(** [sep.join(parts)] *)
Fixpoint py_join (sep : pystr) (parts : list pystr) : pystr :=
  match parts with
  | [] => []
  | [p] => p
  | p :: r => p ++ sep ++ py_join sep r
  end.

(** services/transcription.py, [transcribe_audio]. *)
Definition transcribe_audio (env : Env) : M pystr :=
  match engine_segments env with
  | Ok transcript_parts => ret (py_strip (py_join (s_ " ") transcript_parts))
  | Err e => raise e
  end.

(** services/summarization.py, [summarize_meeting] after the provider
    call: extraction, [json.loads] and [MeetingSummary( **result)]. *)
Definition summary_of_loaded (loaded : option json) : result MeetingSummary :=
  match loaded with
  | None => Err JSONDecodeError
  | Some (JObj d) =>
      match meeting_summary_of_kwargs d with
      | Some m => Ok m
      | None => Err ValidationError
      end
  | Some _ => Err TypeError
  end.

Definition parse_summary_response (response_text : pystr) : result MeetingSummary :=
  summary_of_loaded (json_loads (extract_json_text response_text)).

(** The Python object [summarize_meeting] hands back to main.py. *)
Inductive pyobj : Type :=
| PyDict (d : list (pystr * json))
| PyModel (m : MeetingSummary).

Definition response_text_of (blocks : list (option pystr)) : pystr :=
  concat (map (fun b => match b with Some t => t | None => [] end) blocks).

Definition summarize_meeting (env : Env) (transcript : pystr) : M pyobj :=
  fun w =>
    let w' := mkWorld (store w) (jobs w) (job_history w) (provider_calls w ++ [transcript]) in
    match provider env transcript with
    | Err e => (Err e, w')
    | Ok blocks =>
        match parse_summary_response (response_text_of blocks) with
        | Ok m => (Ok (PyModel m), w')
        | Err e => (Err e, w')
        end
    end.

(** main.py, [MeetingSummary( **summary_dict, transcript=transcript)]: the
    double-star argument must be a mapping, and must not give
    [transcript] a second time. *)
Definition summary_with_transcript (summary_dict : pyobj) (t : pystr) : result MeetingSummary :=
  match summary_dict with
  | PyModel _ => Err TypeError
  | PyDict d =>
      match dict_get (s_ "transcript") d with
      | Some _ => Err TypeError
      | None =>
          match meeting_summary_of_kwargs (d ++ [(s_ "transcript", JStr t)]) with
          | Some m => Ok m
          | None => Err ValidationError
          end
      end
  end.

Definition lift {A} (r : result A) : M A := fun w => (r, w).

(** The step written out in both [_run_transcription_job] and
    [process_meeting] (lines 91-100 and 159-168). *)
Definition build_summary (env : Env) (summarize : bool) (transcript : pystr) : M MeetingSummary :=
  if summarize then
    let* summary_dict := summarize_meeting env transcript in
    lift (summary_with_transcript summary_dict transcript)
  else ret (mkMeetingSummary (s_ "Transcription") [] None None None None transcript).

Record ProcessingResponse := mkResponse {
  resp_status : pystr;
  resp_data : option MeetingSummary;
  resp_error : option pystr }.

Definition _update_transcription_job (job_id status : pystr) (data : option MeetingSummary)
    (error : option pystr) : M unit :=
  fun w =>
    let j := mkJob status data error in
    (Ok tt, mkWorld (store w) (<[job_id := j]> (jobs w)) (job_history w ++ [(job_id, j)])
                    (provider_calls w)).

(** [if db_id:] *)
Definition when_db_id (db_id : option pystr) (k : pystr -> M unit) : M unit :=
  match db_id with
  | Some (c :: r) => k (c :: r)
  | _ => ret tt
  end.

Definition _run_transcription_job (env : Env) (job_id : pystr) (db_id : option pystr)
    (summarize : bool) : M unit :=
  try_except
    (let* transcript := transcribe_audio env in
     let* summary := build_summary env summarize transcript in
     let* _ := _update_transcription_job job_id (s_ "success") (Some summary) None in
     when_db_id db_id (fun d =>
       let* _ := on_db (Db.update_transcript d (Some (s_ "completed")) (Some transcript)
                          (Some (serialize summary)) None) in
       ret tt))
    (fun e =>
       let* _ := _update_transcription_job job_id (s_ "error") None (Some (str_exc e)) in
       when_db_id db_id (fun d =>
         let* _ := on_db (Db.update_transcript d (Some (s_ "error")) None None
                            (Some (str_exc e))) in
         ret tt)).

(** [_save_upload_file]: its extension and size checks are out of scope;
    [accepted] is their outcome. *)
Definition _save_upload_file (accepted : bool) : M unit :=
  if accepted then ret tt else raise (HTTPException 400).

(** [process_meeting]; [new_id] and [now] are the id and timestamp the
    INSERT draws. *)
Definition process_meeting (env : Env) (filename : option pystr) (accepted : bool)
    (summarize : bool) (model : pystr) (new_id now : pystr) : M ProcessingResponse :=
  if negb (py_in model AVAILABLE_MODELS) then raise (HTTPException 400) else
  let original_filename := match filename with Some (c :: r) => c :: r | _ => s_ "unknown" end in
  let* _ := _save_upload_file accepted in
  let* db_id := on_db (Db.create_transcript new_id now original_filename model (s_ "processing")) in
  try_except
    (let* transcript := transcribe_audio env in
     let* summary := build_summary env summarize transcript in
     let* _ := on_db (Db.update_transcript db_id (Some (s_ "completed")) (Some transcript)
                        (Some (serialize summary)) None) in
     ret (mkResponse (s_ "success") (Some summary) None))
    (fun e =>
       let* _ := on_db (Db.update_transcript db_id (Some (s_ "error")) None None
                          (Some (str_exc e))) in
       ret (mkResponse (s_ "error") None (Some (str_exc e)))).

(** [summarize_existing_transcript] *)
Definition summarize_existing_transcript (env : Env) (transcript_id : pystr)
    : M ProcessingResponse :=
  let* record := on_db (Db.get_transcript transcript_id) in
  match record with
  | None => raise (HTTPException 404)
  | Some r =>
      match Db.transcript r with
      | None | Some [] => raise (HTTPException 400)
      | Some transcript_text =>
          try_except
            (let* summary_dict := summarize_meeting env transcript_text in
             let* summary := lift (summary_with_transcript summary_dict transcript_text) in
             let* _ := on_db (Db.update_transcript transcript_id (Some (s_ "completed")) None
                                (Some (serialize summary)) None) in
             ret (mkResponse (s_ "success") (Some summary) None))
            (fun e => ret (mkResponse (s_ "error") None (Some (str_exc e))))
      end
  end.

(** ** services/transcription.py: the model cache [_models]

    [_get_model] as the steps of its body, so that callers can be
    interleaved between them:
    - line 16, [if model_name not in _models:]
    - lines 17-21, [WhisperModel(...)]: the slow load, which builds a new
      engine object (a fresh handle) and counts one load for the key;
    - line 17, the store into [_models];
    - line 22, [return _models[model_name]]. *)

Module ModelCache.

Inductive ModelName := base | small | large_v3.

Global Instance ModelName_eq_dec : EqDecision ModelName.
Proof. solve_decision. Defined.

Record Cache := mkCache {
  models : ModelName -> option nat;
  loads : ModelName -> nat;
  next_handle : nat }.

Definition empty_cache : Cache := mkCache (fun _ => None) (fun _ => 0) 0.

Inductive pc := AtCheck | AtConstruct | AtStore (h : nat) | AtReturn | Returned (h : nat).

Record Caller := mkCaller { key : ModelName; at_pc : pc }.

Definition upd {B} (f : ModelName -> B) (k : ModelName) (b : B) : ModelName -> B :=
  fun k' => if decide (k' = k) then b else f k'.

(** One step of a caller.  A caller that has returned does nothing more;
    [return _models[k]] with no entry (a [KeyError]) cannot occur, since
    entries are never removed, and is left as a stuck caller. *)
Definition step (c : Cache) (t : Caller) : Cache * Caller :=
  let k := key t in
  match at_pc t with
  | AtCheck =>
      match models c k with
      | Some _ => (c, mkCaller k AtReturn)
      | None => (c, mkCaller k AtConstruct)
      end
  | AtConstruct =>
      (mkCache (models c) (upd (loads c) k (S (loads c k))) (S (next_handle c)),
       mkCaller k (AtStore (next_handle c)))
  | AtStore h => (mkCache (upd (models c) k (Some h)) (loads c) (next_handle c), mkCaller k AtReturn)
  | AtReturn =>
      match models c k with
      | Some h => (c, mkCaller k (Returned h))
      | None => (c, t)
      end
  | Returned _ => (c, t)
  end.

(** Preemptive interleaving (threads): [sched] names the caller that runs
    each next step. *)
Fixpoint run_interleaved (sched : list nat) (c : Cache) (ts : list Caller) : Cache * list Caller :=
  match sched with
  | [] => (c, ts)
  | i :: rest =>
      match ts !! i with
      | Some t => let '(c', t') := step c t in run_interleaved rest c' (<[i := t']> ts)
      | None => run_interleaved rest c ts
      end
  end.

Definition returned (t : Caller) : option nat :=
  match at_pc t with Returned h => Some h | _ => None end.

(** On the asyncio event loop, [_get_model] has no [await]: once a caller
    starts it, it runs to its [return] before any other caller runs.  Four
    steps reach [Returned] on every path. *)
Definition acquire (c : Cache) (k : ModelName) : Cache * option nat :=
  let '(c1, t1) := step c (mkCaller k AtCheck) in
  let '(c2, t2) := step c1 t1 in
  let '(c3, t3) := step c2 t2 in
  let '(c4, t4) := step c3 t3 in
  (c4, returned t4).

(** Concurrent tasks on the event loop: their acquires, in the order the
    loop runs them. *)
Fixpoint run_event_loop (c : Cache) (ks : list ModelName) : Cache * list (ModelName * option nat) :=
  match ks with
  | [] => (c, [])
  | k :: rest =>
      let '(c1, h) := acquire c k in
      let '(c2, hs) := run_event_loop c1 rest in
      (c2, (k, h) :: hs)
  end.

End ModelCache.

(** [preload_models]: [_get_model(name)] for each name of
    [AVAILABLE_MODELS], in order, on the calling thread. *)
Definition preload_models (c : ModelCache.Cache) : ModelCache.Cache :=
  fst (ModelCache.run_event_loop c [ModelCache.base; ModelCache.small; ModelCache.large_v3]).

(** ** main.py: the checks of [_save_upload_file] (lines 44-57) *)

(** [p.rfind(c)] for a one-character [c]; -1 when absent. *)
Fixpoint rfind_from (c : ascii) (s : pystr) (i : nat) (found : Z) : Z :=
  match s with
  | [] => found
  | x :: r => rfind_from c r (S i) (if ceqb x c then Z.of_nat i else found)
  end.

Definition py_rfind (s : pystr) (c : ascii) : Z := rfind_from c s 0 (-1).

(** The [while filenameIndex < dotIndex] loop of [genericpath._splitext]:
    [true] is its [return p[:dotIndex], p[dotIndex:]] (a character other
    than the dot before [dotIndex]), [false] the fall-through.  It runs
    fewer than [len(p)] rounds. *)
Fixpoint splitext_loop (fuel : nat) (p : pystr) (filenameIndex dotIndex : Z) : bool :=
  match fuel with
  | O => false
  | S f =>
      if (filenameIndex <? dotIndex)%Z then
        if negb (bool_decide (py_slice p filenameIndex (filenameIndex + 1) = s_ "."))
        then true
        else splitext_loop f p (filenameIndex + 1) dotIndex
      else false
  end.

(** [os.path.splitext(p)] on POSIX: [sep = '/'], no [altsep], [extsep = '.']. *)
Definition splitext (p : pystr) : pystr * pystr :=
  let sepIndex := py_rfind p "/"%char in
  let dotIndex := py_rfind p "."%char in
  if (sepIndex <? dotIndex)%Z && splitext_loop (length p) p (sepIndex + 1) dotIndex
  then (py_slice p 0 dotIndex, py_slice p dotIndex (Z.of_nat (length p)))
  else (p, []).

(** [str.lower()] on code points below 256: A-Z and U+00C0-U+00DE except
    U+00D7 move up by 32. *)
Definition lower_char (c : ascii) : ascii :=
  let n := ord c in
  if ((65 <=? n) && (n <=? 90)) || ((192 <=? n) && (n <=? 222) && negb (n =? 215))
  then ascii_of_nat (n + 32) else c.

Definition py_lower (s : pystr) : pystr := map lower_char s.

(** [s.lstrip(chars)] *)
Fixpoint py_lstrip_chars (chars s : pystr) : pystr :=
  match s with
  | c :: r => if existsb (ceqb c) chars then py_lstrip_chars chars r else s
  | [] => []
  end.

(** config.py defaults. *)
Definition allowed_extensions : list pystr := [s_ "mp3"; s_ "wav"; s_ "m4a"; s_ "webm"].
Definition max_file_size_mb : Z := 25.

(** Line 44. *)
Definition file_ext_of (filename : pystr) : pystr :=
  py_lstrip_chars (s_ ".") (py_lower (snd (splitext filename))).

(** Lines 44-57; [content_len] is [len(content)].  [len(content) / (1024 * 1024)]
    divides by a power of two, exactly for lengths below 2^53, and [>]
    compares that float with the int exactly: a comparison of rationals. *)
Definition save_upload_checks (filename : pystr) (content_len : N) : result unit :=
  let file_ext := file_ext_of filename in
  if negb (py_in file_ext allowed_extensions) then Err (HTTPException 400)
  else
    let file_size_mb := QArith_base.Qmake (Z.of_N content_len) (1024 * 1024) in
    if negb (QArith_base.Qle_bool file_size_mb (QArith_base.inject_Z max_file_size_mb))
    then Err (HTTPException 400)
    else Ok tt.

(** The outcome [_save_upload_file] takes as [accepted]. *)
Definition upload_accepted (filename : pystr) (content_len : N) : bool :=
  match save_upload_checks filename content_len with Ok _ => true | Err _ => false end.

(** ** main.py: the job endpoints *)

Record TranscriptionJobCreated := mkJobCreated {
  created_status : pystr;
  created_job_id : pystr }.

(** A call registered by [background_tasks.add_task(_run_transcription_job,
    job_id, tmp_path, model, db_id, summarize)]. *)
Record BackgroundTask := mkTask {
  task_job_id : pystr;
  task_db_id : option pystr;
  task_summarize : bool }.

(** [start_transcription]: the response and the tasks registered; [job_id]
    and [new_id] are the [uuid4().hex] values of the handler and of the
    INSERT, [now] the [created_at] default. *)
Definition start_transcription (filename : option pystr) (accepted : bool) (model : pystr)
    (summarize : bool) (job_id new_id now : pystr)
    : M (TranscriptionJobCreated * list BackgroundTask) :=
  if negb (py_in model AVAILABLE_MODELS) then raise (HTTPException 400) else
  let original_filename := match filename with Some (c :: r) => c :: r | _ => s_ "unknown" end in
  let* _ := _save_upload_file accepted in
  let* db_id := on_db (Db.create_transcript new_id now original_filename model (s_ "processing")) in
  let* _ := _update_transcription_job job_id (s_ "processing") None None in
  ret (mkJobCreated (s_ "accepted") job_id, [mkTask job_id (Some db_id) summarize]).

(** What FastAPI does once the response is sent: the registered tasks, in order. *)
Fixpoint run_background (env : Env) (tasks : list BackgroundTask) : M unit :=
  match tasks with
  | [] => ret tt
  | t :: rest =>
      let* _ := _run_transcription_job env (task_job_id t) (task_db_id t) (task_summarize t) in
      run_background env rest
  end.

(** [get_transcription]; a job entry is never an empty dict, so [not job]
    means the key is absent. *)
Definition get_transcription (job_id : pystr) : M ProcessingResponse :=
  fun w =>
    match jobs w !! job_id with
    | None => (Err (HTTPException 404), w)
    | Some j => (Ok (mkResponse (job_status j) (job_data j) (job_error j)), w)
    end.

(** ** main.py: the transcript endpoints *)

Module Main.

Record TranscriptListResponse := mkListResponse {
  transcripts : list Db.ListItem;
  total : nat;
  resp_limit : Z;
  resp_offset : Z }.

(** [list_transcripts]; [Query(20, ge=1, le=100)] and [Query(0, ge=0)]
    answer a value out of range with a 422 before the body runs. *)
Definition list_transcripts (limit offset : Z) : M TranscriptListResponse :=
  if negb ((1 <=? limit) && (limit <=? 100) && (0 <=? offset))%Z then raise (HTTPException 422)
  else
    let* transcripts := on_db (Db.list_transcripts limit offset) in
    let* total := on_db Db.count_transcripts in
    ret (mkListResponse transcripts total limit offset).

(** [get_transcript]: the record as [TranscriptRecord( **record)] returns it. *)
Definition get_transcript (transcript_id : pystr) : M Db.Row :=
  let* record := on_db (Db.get_transcript transcript_id) in
  match record with
  | None => raise (HTTPException 404)
  | Some r => ret r
  end.

(** [update_transcript] (PATCH): [{"status": "updated"}]. *)
Definition update_transcript (transcript_id display_name : pystr) : M pystr :=
  let* success := on_db (Db.update_transcript_name transcript_id display_name) in
  if negb success then raise (HTTPException 404) else ret (s_ "updated").

(** [delete_transcript] (DELETE): [{"status": "deleted"}]. *)
Definition delete_transcript (transcript_id : pystr) : M pystr :=
  let* success := on_db (Db.delete_transcript transcript_id) in
  if negb success then raise (HTTPException 404) else ret (s_ "deleted").

End Main.

(** ** The texts [json.dumps] writes between brackets

    The item and member loops of [dumps], as functions of their own, and
    the values without numbers ([model_dump] never produces one). *)

Fixpoint dumps_items (l : list json) : pystr :=
  match l with
  | [] => []
  | [x] => dumps x
  | x :: r => dumps x ++ s_ ", " ++ dumps_items r
  end.

Fixpoint dumps_members (l : list (pystr * json)) : pystr :=
  match l with
  | [] => []
  | [(k, x)] => encode_string k ++ s_ ": " ++ dumps x
  | (k, x) :: r => encode_string k ++ s_ ": " ++ dumps x ++ s_ ", " ++ dumps_members r
  end.

Fixpoint no_num (v : json) : bool :=
  match v with
  | JNum _ => false
  | JArr l => forallb no_num l
  | JObj l => forallb (fun kv => no_num (snd kv)) l
  | _ => true
  end.

(** What [dumps] writes first: never whitespace, a closing bracket or a comma. *)
Definition opener (c : ascii) : Prop :=
  c = "n"%char \/ c = "t"%char \/ c = "f"%char \/ c = dq \/ c = "["%char \/ c = "{"%char.

(** ** Sample inputs *)

Definition sample_row (tr : option pystr) : Db.Row :=
  Db.mkRow (s_ "2024-01-01T00:00:00") (s_ "a.wav") (s_ "a.wav") (s_ "base") (s_ "completed")
    tr None None.

Definition sample_store (up : bool) (tr : option pystr) : Db.Store :=
  Db.mkStore (<[s_ "id1" := sample_row tr]> ∅) up.

Definition sample_world (up : bool) (tr : option pystr) : World :=
  mkWorld (sample_store up tr) ∅ [] [].

Definition sample_env : Env :=
  mkEnv (Ok [s_ " hello"; s_ "world "])
    (fun _ => Ok [Some (q_ "{'title': 't', 'summary': 's'}")]).

Definition sample_submit : result ProcessingResponse * World :=
  process_meeting sample_env (Some (s_ "a.wav")) true false (s_ "base") (s_ "id2") (s_ "now")
    (sample_world true None).

Definition sample_submit_response : ProcessingResponse :=
  match fst sample_submit with Ok r => r | Err _ => mkResponse [] None None end.

Definition sample_resummarize : result ProcessingResponse * World :=
  summarize_existing_transcript sample_env (s_ "id1") (sample_world true (Some (s_ "hello"))).

(** ** Sample provider texts *)

Definition c3_preamble : pystr := s_ "Summary:
".
Definition c3_body : pystr :=
  q_ "{'title': 'T', 'summary': 'S', 'transcript': 'x'}".

(** * Properties *)

(** ** The transcripts table *)

Section StoreFacts.

Lemma update_transcript_cases (id : pystr) st tr sj er (db : Db.Store) :
  Db.update_transcript id st tr sj er db = (Ok false, db) \/
  Db.update_transcript id st tr sj er db = (Err OperationalError, db) \/
  exists r, Db.up db = true /\ Db.rows db !! id = Some r /\
    Db.update_transcript id st tr sj er db =
      (Ok true, Db.with_rows db (<[id := Db.set_fields st tr sj er r]> (Db.rows db))).
Proof.
  assert (Hx : Db.update_transcript id st tr sj er db = (Ok false, db) \/
    Db.update_transcript id st tr sj er db =
      (if negb (Db.up db) then (Err OperationalError, db)
       else match Db.rows db !! id with
            | None => (Ok false, db)
            | Some r => (Ok true, Db.with_rows db (<[id := Db.set_fields st tr sj er r]> (Db.rows db)))
            end)).
  { unfold Db.update_transcript. destruct st, tr, sj, er; auto. }
  destruct Hx as [-> | ->]; [left; reflexivity|].
  destruct (Db.up db) eqn:Hup; simpl; [|right; left; reflexivity].
  destruct (Db.rows db !! id) as [r|] eqn:Hr; [right; right; eauto | left; reflexivity].
Qed.

End StoreFacts.

(** C10 *)
(** [update_transcript] called with none of [status], [transcript],
    [summary_json], [error] returns [False] and leaves the table as it
    was, whether or not a row with that id exists; an update of an unknown
    id also returns [False] with the table unchanged. *)
Theorem update_transcript_empty_is_false (id : pystr) (db : Db.Store) :
  Db.update_transcript id None None None None db = (Ok false, db) /\
  (forall (id' : pystr) st tr sj er,
     Db.up db = true -> Db.rows db !! id' = None ->
     Db.update_transcript id' st tr sj er db = (Ok false, db)).
Proof.
  split; [reflexivity |].
  intros id' st tr sj er Hup Hnone. unfold Db.update_transcript.
  rewrite Hup, Hnone. destruct st, tr, sj, er; reflexivity.
Qed.

(** C8 *)
(** For an existing row, [update_transcript] changes no other row, keeps
    [created_at], [original_filename], [display_name] and [model], and
    either leaves the row as it was or writes exactly the supplied fields
    (an unsupplied field keeps its value).  A rename ([update_transcript_name])
    keeps [transcript] and [summary_json], as [get_transcript] then shows. *)
Theorem update_transcript_writes_only_supplied (id : pystr) st tr sj er
    (db : Db.Store) (r : Db.Row) :
  Db.rows db !! id = Some r ->
  (let '(res, db') := Db.update_transcript id st tr sj er db in
   (forall id', id' <> id -> Db.rows db' !! id' = Db.rows db !! id') /\
   exists r', Db.rows db' !! id = Some r' /\
     Db.created_at r' = Db.created_at r /\
     Db.original_filename r' = Db.original_filename r /\
     Db.display_name r' = Db.display_name r /\
     Db.model r' = Db.model r /\
     (r' = r \/
      (res = Ok true /\
       Db.status r' = match st with Some s => s | None => Db.status r end /\
       Db.transcript r' = match tr with Some t => Some t | None => Db.transcript r end /\
       Db.summary_json r' = match sj with Some j => Some j | None => Db.summary_json r end /\
       Db.error r' = match er with Some e => Some e | None => Db.error r end))) /\
  (Db.up db = true -> forall new_name : pystr,
     let '(_, db') := Db.update_transcript_name id new_name db in
     exists r', fst (Db.get_transcript id db') = Ok (Some r') /\
       Db.transcript r' = Db.transcript r /\ Db.summary_json r' = Db.summary_json r).
Proof.
  intros Hr. split.
  - destruct (update_transcript_cases id st tr sj er db)
      as [H | [H | (r0 & Hup & Hr0 & H)]]; rewrite H.
    + split; [reflexivity|]. exists r. rewrite Hr. repeat split; auto.
    + split; [reflexivity|]. exists r. rewrite Hr. repeat split; auto.
    + rewrite Hr in Hr0. injection Hr0 as <-. simpl. split.
      * intros id' Hne. by rewrite lookup_insert_ne by congruence.
      * exists (Db.set_fields st tr sj er r). rewrite lookup_insert_eq.
        repeat split; auto. right. repeat split; auto.
  - intros Hup new_name. unfold Db.update_transcript_name. rewrite Hup, Hr. simpl.
    unfold Db.get_transcript. simpl. rewrite Hup.
    eexists. rewrite lookup_insert_eq. repeat split; reflexivity.
Qed.

(** ** Re-summarization *)

Lemma world_eta (w : World) : mkWorld (store w) (jobs w) (job_history w) (provider_calls w) = w.
Proof. by destruct w. Qed.

Lemma store_eta (db : Db.Store) : Db.with_rows db (Db.rows db) = db.
Proof. by destruct db. Qed.

(** What [summarize_meeting] hands back is always a pydantic object, which
    main.py then unpacks with a double star. *)
Lemma summarize_meeting_model (env : Env) (t : pystr) (w : World) :
  (exists m, summarize_meeting env t w =
     (Ok (PyModel m), mkWorld (store w) (jobs w) (job_history w) (provider_calls w ++ [t]))) \/
  (exists e, summarize_meeting env t w =
     (Err e, mkWorld (store w) (jobs w) (job_history w) (provider_calls w ++ [t]))).
Proof.
  unfold summarize_meeting.
  destruct (provider env t) as [blocks|e]; [|right; eauto].
  destruct (parse_summary_response (response_text_of blocks)) as [m|e]; eauto.
Qed.

Lemma summary_with_transcript_model (m : MeetingSummary) (t : pystr) :
  summary_with_transcript (PyModel m) t = Err TypeError.
Proof. reflexivity. Qed.

(** C6 *)
(** On a row whose [transcript] is [NULL] or empty, re-summarization
    answers HTTP 400 ("No transcript text available") and leaves the whole
    state as it was: the row and its status are unchanged and the LLM
    provider is not called. *)
Theorem resummarize_without_transcript (env : Env) (id : pystr) (w : World) (r : Db.Row) :
  Db.up (store w) = true ->
  Db.rows (store w) !! id = Some r ->
  (Db.transcript r = None \/ Db.transcript r = Some []) ->
  summarize_existing_transcript env id w = (Err (HTTPException 400), w).
Proof.
  intros Hup Hr Ht. unfold summarize_existing_transcript, bind, on_db, Db.get_transcript.
  rewrite Hup. simpl. rewrite Hr, world_eta.
  destruct Ht as [-> | ->]; reflexivity.
Qed.


(** ** The model cache *)

Module ModelCacheFacts.
Import ModelCache.

Lemma upd_eq {B} (f : ModelName -> B) k b : upd f k b k = b.
Proof. unfold upd. by rewrite decide_True. Qed.

Lemma upd_ne {B} (f : ModelName -> B) k k' b : k' <> k -> upd f k b k' = f k'.
Proof. intros Hne. unfold upd. by rewrite decide_False. Qed.

Lemma acquire_hit (c : Cache) (k : ModelName) (h : nat) :
  models c k = Some h -> acquire c k = (c, Some h).
Proof. intros Hk. unfold acquire, step. simpl. rewrite Hk. simpl. rewrite Hk. reflexivity. Qed.

Lemma acquire_miss (c : Cache) (k : ModelName) :
  models c k = None ->
  acquire c k =
    (mkCache (upd (models c) k (Some (next_handle c))) (upd (loads c) k (S (loads c k)))
             (S (next_handle c)),
     Some (next_handle c)).
Proof.
  intros Hk. unfold acquire, step. simpl. rewrite Hk. simpl. rewrite upd_eq. reflexivity.
Qed.

Lemma acquire_other (c : Cache) (k k' : ModelName) :
  k' <> k ->
  models (fst (acquire c k')) k = models c k /\ loads (fst (acquire c k')) k = loads c k.
Proof.
  intros Hne. destruct (models c k') as [h|] eqn:Hk'.
  - by rewrite (acquire_hit c k' h Hk').
  - rewrite (acquire_miss c k' Hk'). simpl. by rewrite !upd_ne by congruence.
Qed.

Lemma run_event_loop_loaded (ks : list ModelName) (c : Cache) (k : ModelName) (h : nat) :
  models c k = Some h ->
  let '(c', hs) := run_event_loop c ks in
  models c' k = Some h /\ loads c' k = loads c k /\ (forall h', (k, h') ∈ hs -> h' = Some h).
Proof.
  revert c. induction ks as [|k0 ks IH]; intros c Hk; simpl.
  - repeat split; auto. intros h' Hin. by apply elem_of_nil in Hin.
  - destruct (acquire c k0) as [c1 r1] eqn:Ha.
    assert (Hc1 : models c1 k = Some h /\ loads c1 k = loads c k /\ (k0 = k -> r1 = Some h)).
    { destruct (decide (k0 = k)) as [->|Hne].
      - rewrite (acquire_hit c k h Hk) in Ha. injection Ha as <- <-. auto.
      - pose proof (acquire_other c k k0 Hne) as [H1 H2]. rewrite Ha in H1, H2. simpl in *.
        repeat split; congruence. }
    destruct Hc1 as (Hm1 & Hl1 & Hr1).
    specialize (IH c1 Hm1). destruct (run_event_loop c1 ks) as [c2 hs] eqn:Hrun.
    destruct IH as (Hm2 & Hl2 & Hhs). repeat split; [assumption | congruence |].
    intros h' Hin. apply elem_of_cons in Hin as [Heq | Hin].
    + injection Heq as -> ->. auto.
    + auto.
Qed.

Lemma run_event_loop_unloaded (ks : list ModelName) (c : Cache) (k : ModelName) :
  models c k = None ->
  let '(c', hs) := run_event_loop c ks in
  (k ∉ ks -> loads c' k = loads c k) /\
  (k ∈ ks -> loads c' k = S (loads c k) /\ exists h, forall h', (k, h') ∈ hs -> h' = Some h).
Proof.
  revert c. induction ks as [|k0 ks IH]; intros c Hk; simpl.
  - split; [auto|]. intros Hin. by apply elem_of_nil in Hin.
  - destruct (decide (k0 = k)) as [->|Hne].
    + rewrite (acquire_miss c k Hk).
      set (c1 := mkCache _ _ _).
      assert (Hm1 : models c1 k = Some (next_handle c)) by (simpl; apply upd_eq).
      pose proof (run_event_loop_loaded ks c1 k _ Hm1) as Hl.
      destruct (run_event_loop c1 ks) as [c2 hs]. destruct Hl as (_ & Hl2 & Hhs).
      split.
      * intros Hnin. exfalso. apply Hnin. apply elem_of_cons. by left.
      * split; [rewrite Hl2; simpl; by rewrite upd_eq|].
        exists (next_handle c). intros h' Hin. apply elem_of_cons in Hin as [Heq | Hin].
        -- by injection Heq as ->.
        -- auto.
    + pose proof (acquire_other c k k0 Hne) as [H1 H2].
      destruct (acquire c k0) as [c1 r1]. simpl in H1, H2.
      rewrite <- H1 in Hk. specialize (IH c1 Hk).
      destruct (run_event_loop c1 ks) as [c2 hs]. destruct IH as [IHn IHi].
      split.
      * intros Hnin. rewrite IHn, H2; [reflexivity|]. intros Hin. apply Hnin. by right.
      * intros Hin. apply elem_of_cons in Hin as [Heq | Hin]; [congruence|].
        destruct (IHi Hin) as [Hl [h Hh]]. split; [by rewrite Hl, H2|].
        exists h. intros h' Hin'. apply elem_of_cons in Hin' as [Heq | Hin']; [congruence|].
        auto.
Qed.

End ModelCacheFacts.



(** ** The asynchronous job *)

Lemma update_transcript_up (id : pystr) st tr sj er (db : Db.Store) :
  Db.up db = true -> exists b db', Db.update_transcript id st tr sj er db = (Ok b, db').
Proof.
  intros Hup. unfold Db.update_transcript. rewrite Hup.
  destruct (Db.rows db !! id); destruct st, tr, sj, er; simpl; eauto.
Qed.

Lemma update_transcript_down (id : pystr) st tr sj er (db : Db.Store) :
  Db.up db = false -> (st, tr, sj, er) <> (None, None, None, None) ->
  Db.update_transcript id st tr sj er db = (Err OperationalError, db).
Proof.
  intros Hdown Hsome. unfold Db.update_transcript. rewrite Hdown.
  destruct st, tr, sj, er; simpl; try reflexivity. congruence.
Qed.

(** C2 *)
(** When the database fails the [completed] update of a run without
    summarization (for instance [sqlite3.OperationalError: database is
    locked]), the job, already written as [success], is written again as
    [error]: a poller can observe [success] and then [error]. *)
Theorem run_job_store_failure_overwrites_success (env : Env) (job_id d : pystr)
    (w : World) (parts : list pystr) :
  engine_segments env = Ok parts -> d <> [] -> Db.up (store w) = false ->
  let w' := snd (_run_transcription_job env job_id (Some d) false w) in
  (exists s : MeetingSummary,
     job_history w' = job_history w ++
       [(job_id, mkJob (s_ "success") (Some s) None);
        (job_id, mkJob (s_ "error") None (Some (str_exc OperationalError)))]) /\
  jobs w' !! job_id = Some (mkJob (s_ "error") None (Some (str_exc OperationalError))).
Proof.
  intros Heng Hd Hdown. destruct d as [|c d]; [congruence|].
  unfold _run_transcription_job, try_except, bind, transcribe_audio.
  rewrite Heng. simpl.
  unfold on_db. simpl. rewrite Hdown. simpl. rewrite Hdown. simpl.
  split.
  - eexists. rewrite <- app_assoc. reflexivity.
  - by rewrite lookup_insert_eq.
Qed.

Ltac close_store_up Hup :=
  repeat (try unfold bind; try unfold on_db; try unfold ret; try unfold lift; cbn -[Db.update_transcript];
          match goal with
          | |- context [Db.update_transcript ?i ?st ?tr ?sj ?er ?db] =>
              destruct (update_transcript_up i st tr sj er db Hup) as (? & ? & ->)
          end);
  simpl.

(** With the database available, a run writes its job exactly once more,
    with [success] or [error]. *)
Lemma run_job_single_terminal_when_store_up (env : Env) (job_id : pystr)
    (db_id : option pystr) (summarize : bool) (w : World) :
  Db.up (store w) = true ->
  let '(res, w') := _run_transcription_job env job_id db_id summarize w in
  res = Ok tt /\
  exists j, job_history w' = job_history w ++ [(job_id, j)] /\
            (job_status j = s_ "success" \/ job_status j = s_ "error").
Proof.
  intros Hup.
  unfold _run_transcription_job, try_except, bind, transcribe_audio.
  destruct (engine_segments env) as [parts|e]; simpl.
  - destruct summarize; simpl.
    + unfold bind.
      match goal with
      | |- context [summarize_meeting env ?t w] =>
          destruct (summarize_meeting_model env t w) as [[m ->] | [e ->]]; simpl
      end;
      destruct db_id as [[|c d]|]; close_store_up Hup;
      (split; [reflexivity|]; eexists; split; [reflexivity|]; by right).
    + destruct db_id as [[|c d]|]; close_store_up Hup;
      (split; [reflexivity|]; eexists; split; [reflexivity|]; by left).
  - destruct db_id as [[|c d]|]; close_store_up Hup;
    (split; [reflexivity|]; eexists; split; [reflexivity|]; by right).
Qed.

(** ** The synchronous submission *)

Lemma create_transcript_ok (id now fn m st : pystr) (db : Db.Store) (d : pystr) (db' : Db.Store) :
  Db.create_transcript id now fn m st db = (Ok d, db') ->
  d = id /\ Db.up db = true /\
  Db.rows db' !! id = Some (Db.mkRow now fn fn m st None None None) /\ Db.up db' = true.
Proof.
  unfold Db.create_transcript. destruct (Db.up db) eqn:Hup; simpl; [|discriminate].
  destruct (Db.rows db !! id); [discriminate|].
  intros [= <- <-]. simpl. repeat split; auto. apply lookup_insert_eq.
Qed.

(** C4 *)
(** When [process_meeting] answers [success], the returned transcript is
    the engine's segments joined with spaces and stripped (it may be
    empty), and the row created by the call (id [new_id]) has status
    [completed] and that same transcript. *)
Theorem process_meeting_success_persists (env : Env) (filename : option pystr)
    (accepted summarize : bool) (model new_id now : pystr) (w : World)
    (resp : ProcessingResponse) (w' : World) :
  process_meeting env filename accepted summarize model new_id now w = (Ok resp, w') ->
  resp_status resp = s_ "success" ->
  exists (m : MeetingSummary) (r : Db.Row) (parts : list pystr),
    resp_data resp = Some m /\
    engine_segments env = Ok parts /\
    transcript m = py_strip (py_join (s_ " ") parts) /\
    Db.rows (store w') !! new_id = Some r /\
    Db.status r = s_ "completed" /\
    Db.transcript r = Some (transcript m).
Proof.
  intros Hrun Hst. unfold process_meeting in Hrun.
  destruct (negb (py_in model AVAILABLE_MODELS)); [discriminate|].
  unfold _save_upload_file in Hrun. destruct accepted; [|discriminate].
  unfold bind at 1, ret at 1 in Hrun. unfold bind at 1, on_db at 1 in Hrun.
  match type of Hrun with context [Db.create_transcript ?i ?n ?f ?mo ?s ?db] =>
    destruct (Db.create_transcript i n f mo s db) as [[d|e] db1] eqn:Hc; [|discriminate];
    apply create_transcript_ok in Hc as (-> & _ & Hrow & Hup1) end.
  unfold try_except, bind, transcribe_audio in Hrun.
  destruct (engine_segments env) as [parts|e] eqn:Heng.
  2:{ unfold raise, on_db in Hrun; cbn -[Db.update_transcript serialize s_ py_strip py_join] in Hrun.
      match type of Hrun with context [Db.update_transcript ?i ?st ?tr ?sj ?er ?db] =>
        destruct (update_transcript_up i st tr sj er db Hup1) as (b & db2 & Hu); rewrite Hu in Hrun end.
      cbn in Hrun. injection Hrun as <- _. discriminate. }
  unfold ret at 1 in Hrun. cbn -[Db.update_transcript build_summary serialize s_ py_strip py_join] in Hrun.
  set (t := py_strip (py_join (s_ " ") parts)) in Hrun.
  match type of Hrun with context [build_summary env summarize t ?w1] =>
    destruct (build_summary env summarize t w1) as [[m|e] w2] eqn:Hb;
    assert (Hs2 : store w2 = db1)
      by (revert Hb; unfold build_summary; destruct summarize;
          [ unfold bind; intros Hb;
            destruct (summarize_meeting_model env t w1) as [[m' Hs] | [e' Hs]];
            rewrite Hs in Hb; simpl in Hb; try (injection Hb as _ <-); reflexivity
          | intros [= _ <-]; reflexivity ])
  end.
  2:{ unfold on_db in Hrun; cbn -[Db.update_transcript serialize s_ py_strip py_join] in Hrun. rewrite Hs2 in Hrun.
      match type of Hrun with context [Db.update_transcript ?i ?st ?tr ?sj ?er ?db] =>
        destruct (update_transcript_up i st tr sj er db Hup1) as (b & db2 & Hu); rewrite Hu in Hrun end.
      cbn in Hrun. injection Hrun as <- _. discriminate. }
  assert (Htm : transcript m = t).
  { revert Hb. unfold build_summary. destruct summarize.
    - unfold bind. intros Hb.
      match type of Hb with context [summarize_meeting env t ?w1] =>
      destruct (summarize_meeting_model env t w1) as [[m' Hs] | [e' Hs]] end;
        rewrite Hs in Hb; simpl in Hb; discriminate.
    - intros [= <- _]. reflexivity. }
  unfold on_db in Hrun; cbn -[Db.update_transcript serialize s_ py_strip py_join] in Hrun. rewrite Hs2 in Hrun.
  unfold Db.update_transcript in Hrun. rewrite Hup1, Hrow in Hrun. cbn in Hrun.
  injection Hrun as <- <-.
  eexists m, _, parts. cbn. rewrite lookup_insert_eq. repeat split; cbn; rewrite ?Htm; reflexivity.
Qed.

(** C4 *)
(** A silent recording (the engine yields no segment) is answered with
    [success] and an empty transcript. *)
Lemma process_meeting_empty_transcript :
  let env := mkEnv (Ok []) (fun _ => Err (ProviderError (s_ "unused"))) in
  let w := mkWorld (Db.mkStore ∅ true) ∅ [] [] in
  exists resp w',
    process_meeting env (Some (s_ "silence.wav")) true false (s_ "base") (s_ "id1") (s_ "now") w
      = (Ok resp, w') /\
    resp_status resp = s_ "success" /\
    option_map transcript (resp_data resp) = Some [].
Proof. simpl. do 2 eexists. split; [vm_compute; reflexivity|]. split; reflexivity. Qed.

(** ** Locating the fences *)

Module FenceFacts.

Lemma prefixb_app (p r : pystr) : prefixb p (p ++ r) = true.
Proof. induction p as [|x p IH]; simpl; [reflexivity|]. rewrite IH, andb_true_r. apply Ascii.eqb_refl. Qed.

Lemma prefixb_app_inv (p q s : pystr) : prefixb (p ++ q) s = true -> prefixb p s = true.
Proof.
  revert s. induction p as [|x p IH]; intros [|y s]; simpl; auto; try discriminate.
  intros [H1 H2]%andb_prop. rewrite H1. simpl. auto.
Qed.

Lemma find_at_cons (sub : pystr) (x : ascii) (s : pystr) (i : nat) :
  find_at sub (x :: s) i = if prefixb sub (x :: s) then Some i else find_at sub s (S i).
Proof. reflexivity. Qed.

Lemma prefixb_cons (a b : ascii) (p s : pystr) : prefixb (a :: p) (b :: s) = ceqb a b && prefixb p s.
Proof. reflexivity. Qed.

(** A text without the first character of [sub] holds no occurrence of it. *)
Lemma find_at_skip (c : ascii) (sub a s : pystr) (i : nat) :
  ~ In c a -> find_at (c :: sub) (a ++ s) i = find_at (c :: sub) s (i + length a).
Proof.
  revert i. induction a as [|x a IH]; intros i Hn.
  - now rewrite Nat.add_0_r.
  - assert (Hx : ceqb c x = false) by (apply Ascii.eqb_neq; intros E; apply Hn; rewrite E; simpl; auto).
    rewrite <- app_comm_cons, find_at_cons, prefixb_cons, Hx. simpl andb. cbn iota. rewrite IH by (intros H; apply Hn; simpl; auto). simpl length. f_equal. lia.
Qed.

Lemma find_at_first (c : ascii) (sub a r : pystr) (i : nat) :
  ~ In c a -> find_at (c :: sub) (a ++ (c :: sub) ++ r) i = Some (i + length a).
Proof.
  intros Hn. rewrite find_at_skip by exact Hn.
  change ((c :: sub) ++ r) with (c :: (sub ++ r)). rewrite find_at_cons.
  change (c :: sub ++ r) with ((c :: sub) ++ r). rewrite prefixb_app. reflexivity.
Qed.

Lemma find_at_absent (c : ascii) (sub a : pystr) (i : nat) :
  ~ In c a -> find_at (c :: sub) a i = None.
Proof. intros Hn. rewrite <- (app_nil_r a), find_at_skip by exact Hn. reflexivity. Qed.

Lemma find_at_app_some (p q s : pystr) (i : nat) :
  find_at (p ++ q) s i <> None -> find_at p s i <> None.
Proof.
  revert i. induction s as [|x s IH]; intros i; simpl.
  - destruct (prefixb (p ++ q) []) eqn:H; [|congruence].
    rewrite (prefixb_app_inv _ _ _ H). discriminate.
  - destruct (prefixb (p ++ q) (x :: s)) eqn:H.
    + rewrite (prefixb_app_inv _ _ _ H). discriminate.
    + destruct (prefixb p (x :: s)); [discriminate|]. apply IH.
Qed.

Lemma py_contains_app (s p q : pystr) :
  py_contains s p = false -> py_contains s (p ++ q) = false.
Proof.
  unfold py_contains. intros H.
  destruct (find_at (p ++ q) s 0) eqn:E; [|reflexivity].
  exfalso. apply (find_at_app_some p q s 0); [rewrite E; discriminate|].
  destruct (find_at p s 0); [discriminate|reflexivity].
Qed.

(** [s.find(sub, len(pre))] on [pre + s]. *)
Lemma py_find_app (pre s sub : pystr) :
  py_find (pre ++ s) sub (Z.of_nat (length pre)) =
  match find_at sub s (length pre) with Some i => Z.of_nat i | None => (-1)%Z end.
Proof.
  unfold py_find. rewrite length_app.
  replace (Z.of_nat (length pre) <? 0)%Z with false by (symmetry; apply Z.ltb_ge; lia).
  replace (Z.of_nat (length pre + length s) <? Z.of_nat (length pre))%Z with false
    by (symmetry; apply Z.ltb_ge; lia).
  rewrite Nat2Z.id, drop_app_length. reflexivity.
Qed.

Lemma py_find_0 (s sub : pystr) :
  py_find s sub 0 = match find_at sub s 0 with Some i => Z.of_nat i | None => (-1)%Z end.
Proof. exact (py_find_app [] s sub). Qed.

Lemma norm_index_in (len : nat) (i : Z) : (0 <= i <= Z.of_nat len)%Z -> norm_index len i = i.
Proof. unfold norm_index. intros H. destruct (i <? 0)%Z eqn:E; [apply Z.ltb_lt in E; lia|lia]. Qed.

Lemma py_slice_mid (pre b r : pystr) :
  py_slice (pre ++ b ++ r) (Z.of_nat (length pre)) (Z.of_nat (length pre + length b)) = b.
Proof.
  unfold py_slice. rewrite !length_app.
  rewrite !norm_index_in by lia.
  replace (Z.to_nat (Z.of_nat (length pre + length b) - Z.of_nat (length pre))) with (length b) by lia.
  rewrite Nat2Z.id, drop_app_length, take_app_length. reflexivity.
Qed.

Lemma py_slice_tail (pre b : pystr) :
  py_slice (pre ++ b) (Z.of_nat (length pre)) (Z.of_nat (length (pre ++ b))) = b.
Proof.
  rewrite length_app. rewrite <- (app_nil_r b) at 1. rewrite py_slice_mid. reflexivity.
Qed.

Definition bt : ascii := "`"%char.

Lemma s_fence3 : s_ "```" = bt :: s_ "``".
Proof. reflexivity. Qed.
Lemma s_fence_json : s_ "```json" = bt :: s_ "``json".
Proof. reflexivity. Qed.

(** The text between a first [```json] and the next [```]. *)
Lemma extract_tagged (a b c : pystr) :
  ~ In bt a -> ~ In bt b ->
  extract_json_text (a ++ s_ "```json" ++ b ++ s_ "```" ++ c) = py_strip b.
Proof.
  intros Ha Hb. unfold extract_json_text.
  assert (Hf : find_at (s_ "```json") (a ++ s_ "```json" ++ b ++ s_ "```" ++ c) 0 = Some (length a)).
  { rewrite s_fence_json. apply find_at_first, Ha. }
  unfold py_contains. rewrite Hf.
  replace (py_find _ (s_ "```json") 0) with (Z.of_nat (length a))
    by (rewrite py_find_0, Hf; reflexivity).
  replace (Z.of_nat (length a) + 7)%Z with (Z.of_nat (length (a ++ s_ "```json")))
    by (rewrite length_app; simpl; lia).
  rewrite app_assoc, py_find_app, s_fence3, find_at_first by exact Hb.
  rewrite <- s_fence3, py_slice_mid. reflexivity.
Qed.

(** The text between a first [```] and the next one, with no [```json]. *)
Lemma extract_untagged (a b c : pystr) :
  ~ In bt a -> ~ In bt b ->
  py_contains (a ++ s_ "```" ++ b ++ s_ "```" ++ c) (s_ "```json") = false ->
  extract_json_text (a ++ s_ "```" ++ b ++ s_ "```" ++ c) = py_strip b.
Proof.
  intros Ha Hb Hj. unfold extract_json_text. rewrite Hj.
  assert (Hf : find_at (s_ "```") (a ++ s_ "```" ++ b ++ s_ "```" ++ c) 0 = Some (length a)).
  { rewrite s_fence3. apply find_at_first, Ha. }
  unfold py_contains. rewrite Hf.
  replace (py_find _ (s_ "```") 0) with (Z.of_nat (length a))
    by (rewrite py_find_0, Hf; reflexivity).
  replace (Z.of_nat (length a) + 3)%Z with (Z.of_nat (length (a ++ s_ "```")))
    by (rewrite length_app; simpl; lia).
  rewrite app_assoc, py_find_app, s_fence3, find_at_first by exact Hb.
  replace (Z.of_nat (length (a ++ bt :: s_ "``") + length b) =? -1)%Z with false
    by (symmetry; apply Z.eqb_neq; lia).
  rewrite <- s_fence3, py_slice_mid. reflexivity.
Qed.

(** An opening [```] never closed: the rest of the text. *)
Lemma extract_unclosed (a b : pystr) :
  ~ In bt a -> ~ In bt b ->
  py_contains (a ++ s_ "```" ++ b) (s_ "```json") = false ->
  extract_json_text (a ++ s_ "```" ++ b) = py_strip b.
Proof.
  intros Ha Hb Hj. unfold extract_json_text. rewrite Hj.
  assert (Hf : find_at (s_ "```") (a ++ s_ "```" ++ b) 0 = Some (length a)).
  { rewrite s_fence3. apply find_at_first, Ha. }
  unfold py_contains. rewrite Hf.
  replace (py_find _ (s_ "```") 0) with (Z.of_nat (length a))
    by (rewrite py_find_0, Hf; reflexivity).
  replace (Z.of_nat (length a) + 3)%Z with (Z.of_nat (length (a ++ s_ "```")))
    by (rewrite length_app; simpl; lia).
  rewrite app_assoc, py_find_app, s_fence3, find_at_absent by exact Hb.
  simpl (_ =? _)%Z. rewrite <- s_fence3, py_slice_tail. reflexivity.
Qed.

Lemma extract_raw (t : pystr) :
  py_contains t (s_ "```") = false -> extract_json_text t = t.
Proof.
  intros H. unfold extract_json_text.
  replace (s_ "```json") with (s_ "```" ++ s_ "json") by reflexivity.
  rewrite (py_contains_app t (s_ "```") (s_ "json") H), H. reflexivity.
Qed.

End FenceFacts.

Module StripFacts.

Lemma py_lstrip_snoc (x : pystr) (c : ascii) :
  py_isspace c = true ->
  (py_lstrip (x ++ [c]) = [] /\ py_lstrip x = []) \/ py_lstrip (x ++ [c]) = py_lstrip x ++ [c].
Proof.
  intros Hc. induction x as [|d x IH]; simpl.
  - left. rewrite Hc. auto.
  - destruct (py_isspace d); [exact IH|right; reflexivity].
Qed.

Lemma py_strip_snoc (x : pystr) (c : ascii) :
  py_isspace c = true -> py_strip (x ++ [c]) = py_strip x.
Proof.
  intros Hc. unfold py_strip. destruct (py_lstrip_snoc x c Hc) as [[-> ->] | ->]; [reflexivity|].
  rewrite rev_app_distr. simpl. rewrite Hc. reflexivity.
Qed.

Lemma py_strip_cons (x : pystr) (c : ascii) :
  py_isspace c = true -> py_strip (c :: x) = py_strip x.
Proof. intros Hc. unfold py_strip. simpl. rewrite Hc. reflexivity. Qed.

End StripFacts.







Module RoundTrip.

Lemma hex_val_hexdig (k : nat) : k < 16 -> hex_val (hexdig k) = Some k.
Proof.
  intros H. do 16 (destruct k as [|k]; [reflexivity|]). lia.
Qed.

Lemma decode_u_hexdig (c : ascii) :
  decode_u "0" "0" (hexdig (ord c / 16)) (hexdig (ord c mod 16)) = Some c.
Proof.
  pose proof (nat_ascii_bounded c) as Hb. unfold decode_u.
  rewrite !hex_val_hexdig by (unfold ord; first [apply Nat.Div0.div_lt_upper_bound; lia | apply Nat.mod_upper_bound; lia]).
  change (hex_val "0") with (Some 0). cbv beta iota.
  replace (((0 * 16 + 0) * 16 + ord c / 16) * 16 + ord c mod 16) with (ord c)
    by (pose proof (Nat.div_mod (ord c) 16); lia).
  unfold ord. replace (nat_of_ascii c <? 256) with true by (symmetry; apply Nat.ltb_lt; exact Hb).
  rewrite ascii_nat_embedding. reflexivity. 
Qed.

Lemma scan_string_cons (c : ascii) (r : pystr) :
  scan_string (c :: r) =
  if ceqb c dq then Some ([], r)
  else if ceqb c "\" then
    match r with
    | [] => None
    | e :: r' =>
        if ceqb e "u" then
          match r' with
          | h1 :: h2 :: h3 :: h4 :: r'' =>
              match decode_u h1 h2 h3 h4, scan_string r'' with
              | Some ch, Some (t, rest) => Some (ch :: t, rest)
              | _, _ => None
              end
          | _ => None
          end
        else
          match simple_escape e, scan_string r' with
          | Some ch, Some (t, rest) => Some (ch :: t, rest)
          | _, _ => None
          end
    end
  else if ord c <? 32 then None
  else match scan_string r with Some (t, rest) => Some (c :: t, rest) | None => None end.
Proof. reflexivity. Qed.

Lemma scan_string_u (a b c d : ascii) (s : pystr) :
  scan_string ("\"%char :: "u"%char :: a :: b :: c :: d :: s) =
  match decode_u a b c d, scan_string s with
  | Some ch, Some (t, rest) => Some (ch :: t, rest)
  | _, _ => None
  end.
Proof. reflexivity. Qed.

Lemma scan_string_escape_char (c : ascii) (s : pystr) :
  scan_string (escape_char c ++ s) =
  match scan_string s with Some (t, r) => Some (c :: t, r) | None => None end.
Proof.
  unfold escape_char.
  destruct (ceqb c dq) eqn:E1; [apply Ascii.eqb_eq in E1; subst; reflexivity|].
  destruct (ceqb c "\") eqn:E2; [apply Ascii.eqb_eq in E2; subst; reflexivity|].
  destruct (ceqb c "010") eqn:E3; [apply Ascii.eqb_eq in E3; subst; reflexivity|].
  destruct (ceqb c "013") eqn:E4; [apply Ascii.eqb_eq in E4; subst; reflexivity|].
  destruct (ceqb c "009") eqn:E5; [apply Ascii.eqb_eq in E5; subst; reflexivity|].
  destruct (ceqb c "008") eqn:E6; [apply Ascii.eqb_eq in E6; subst; reflexivity|].
  destruct (ceqb c "012") eqn:E7; [apply Ascii.eqb_eq in E7; subst; reflexivity|].
  destruct ((ord c <? 32) || (126 <? ord c)) eqn:E.
  - cbn [app]. rewrite scan_string_u, decode_u_hexdig. reflexivity.
  - apply orb_false_iff in E as [E _]. cbn [app]. rewrite scan_string_cons, E1, E2, E. reflexivity.
Qed.

Lemma dumps_arr (l : list json) : dumps (JArr l) = "["%char :: dumps_items l ++ ["]"%char].
Proof.
  reflexivity.
Qed.

Lemma dumps_obj (l : list (pystr * json)) : dumps (JObj l) = "{"%char :: dumps_members l ++ ["}"%char].
Proof.
  reflexivity.
Qed.

Lemma scan_string_encoded (t rest : pystr) :
  scan_string (flat_map escape_char t ++ dq :: rest) = Some (t, rest).
Proof.
  induction t as [|c t IH]; [reflexivity|].
  cbn [flat_map]. rewrite <- app_assoc, scan_string_escape_char, IH. reflexivity.
Qed.

Lemma dumps_head (v : json) : no_num v = true -> exists c t, dumps v = c :: t /\ opener c.
Proof.
  unfold opener. destruct v as [|[]| | | |]; intros H; try discriminate; cbn [dumps];
  try (rewrite dumps_arr); try (rewrite dumps_obj); do 2 eexists; split; try reflexivity; tauto.
Qed.

Lemma skip_ws_opener (c : ascii) (s : pystr) : opener c -> skip_ws (c :: s) = c :: s.
Proof. unfold opener. intros [->|[->|[->|[->|[->| ->]]]]]; reflexivity. Qed.

Lemma skip_ws_dumps (v : json) (s : pystr) : no_num v = true -> skip_ws (dumps v ++ s) = dumps v ++ s.
Proof. intros H. destruct (dumps_head v H) as (c & t & -> & Ho). apply skip_ws_opener, Ho. Qed.

Lemma scan_once_str (n : nat) (r : pystr) :
  scan_once (S n) (dq :: r) =
  match scan_string r with Some (t, r') => Some (JStr t, r') | None => None end.
Proof. reflexivity. Qed.

Lemma scan_once_arr (n : nat) (r : pystr) :
  scan_once (S n) ("["%char :: r) =
  match skip_ws r with
  | c1 :: r1 => if ceqb c1 "]" then Some (JArr [], r1) else array_elems n (c1 :: r1) []
  | [] => None
  end.
Proof. reflexivity. Qed.

Lemma scan_once_obj (n : nat) (r : pystr) :
  scan_once (S n) ("{"%char :: r) =
  match skip_ws r with
  | c1 :: r1 =>
      if ceqb c1 "}" then Some (JObj [], r1)
      else if ceqb c1 dq then object_members n r1 [] else None
  | [] => None
  end.
Proof. reflexivity. Qed.

Lemma array_elems_S (n : nat) (s : pystr) (acc : list json) :
  array_elems (S n) s acc =
  match scan_once n s with
  | None => None
  | Some (v, r) =>
      match skip_ws r with
      | c :: r' =>
          if ceqb c "]" then Some (JArr (rev (v :: acc)), r')
          else if ceqb c "," then array_elems n (skip_ws r') (v :: acc)
          else None
      | [] => None
      end
  end.
Proof. reflexivity. Qed.

Lemma object_members_S (n : nat) (s : pystr) (acc : list (pystr * json)) :
  object_members (S n) s acc =
  match scan_string s with
  | None => None
  | Some (key, r) =>
      match skip_ws r with
      | c :: r1 =>
          if ceqb c ":" then
            match scan_once n (skip_ws r1) with
            | None => None
            | Some (v, r2) =>
                match skip_ws r2 with
                | c2 :: r3 =>
                    if ceqb c2 "}" then Some (JObj (rev ((key, v) :: acc)), r3)
                    else if ceqb c2 "," then
                      match skip_ws r3 with
                      | c3 :: r4 =>
                          if ceqb c3 dq then object_members n r4 ((key, v) :: acc)
                          else None
                      | [] => None
                      end
                    else None
                | [] => None
                end
            end
          else None
      | [] => None
      end
  end.
Proof. reflexivity. Qed.

Lemma skip_ws_items (l : list json) (s : pystr) :
  l <> [] -> forallb no_num l = true -> skip_ws (dumps_items l ++ s) = dumps_items l ++ s.
Proof.
  intros Hne Hf. destruct l as [|x r]; [congruence|]. cbn [forallb] in Hf.
  apply andb_prop in Hf as [Hx _]. destruct (dumps_head x Hx) as (c & t & Hd & Ho).
  destruct r; cbn [dumps_items]; rewrite Hd, <- !app_comm_cons;
    apply skip_ws_opener, Ho.
Qed.

Lemma members_tl (k : pystr) (x : json) (r : list (pystr * json)) :
  tl (dumps_members ((k, x) :: r)) =
  flat_map escape_char k ++ dq :: ":"%char :: " "%char :: dumps x ++
    match r with [] => [] | _ => ","%char :: " "%char :: dumps_members r end.
Proof.
  destruct r as [|p r].
  - change (dumps_members [(k, x)]) with (encode_string k ++ s_ ": " ++ dumps x).
    unfold encode_string. rewrite app_nil_r. cbn [app tl]. rewrite <- app_assoc. reflexivity.
  - change (dumps_members ((k, x) :: p :: r))
      with (encode_string k ++ s_ ": " ++ dumps x ++ s_ ", " ++ dumps_members (p :: r)).
    unfold encode_string. cbn [app tl]. rewrite <- app_assoc. reflexivity.
Qed.

Lemma members_length (k : pystr) (x : json) (r : list (pystr * json)) :
  length (dumps_members ((k, x) :: r)) =
  S (length (flat_map escape_char k)) + 3 + length (dumps x) +
    match r with [] => 0 | _ => 2 + length (dumps_members r) end.
Proof.
  assert (Hm : dumps_members ((k, x) :: r) = dq :: tl (dumps_members ((k, x) :: r)))
    by (destruct r; reflexivity).
  rewrite Hm, members_tl. cbn [length]. rewrite length_app. cbn [length].
  rewrite length_app. destruct r; cbn [length]; lia.
Qed.

Lemma scan_dumps (n : nat) :
  (forall v rest, no_num v = true -> length (dumps v) < n ->
     scan_once n (dumps v ++ rest) = Some (v, rest)) /\
  (forall l acc rest, l <> [] -> forallb no_num l = true -> S (length (dumps_items l)) < n ->
     array_elems n (dumps_items l ++ "]"%char :: rest) acc = Some (JArr (rev acc ++ l), rest)) /\
  (forall k x r acc rest, forallb (fun kv => no_num (snd kv)) ((k, x) :: r) = true ->
     length (dumps_members ((k, x) :: r)) < n ->
     object_members n (tl (dumps_members ((k, x) :: r)) ++ "}"%char :: rest) acc
       = Some (JObj (rev acc ++ (k, x) :: r), rest)).
Proof.
  induction n as [|n IH]; [repeat split; intros; lia|].
  destruct IH as (IH1 & IH2 & IH3). split; [|split].
  - intros v rest Hv Hl. destruct v as [|[]| |t|l|l]; try discriminate.
    + reflexivity.
    + reflexivity.
    + reflexivity.
    + replace (dumps (JStr t) ++ rest) with (dq :: (flat_map escape_char t ++ dq :: rest))
        by (cbn [dumps encode_string app]; rewrite <- app_assoc; reflexivity).
      rewrite scan_once_str, scan_string_encoded. reflexivity.
    + rewrite dumps_arr in *.
      replace (("["%char :: dumps_items l ++ ["]"%char]) ++ rest)
        with ("["%char :: dumps_items l ++ "]"%char :: rest)
        by (cbn [app]; rewrite <- app_assoc; reflexivity).
      rewrite scan_once_arr.
      destruct l as [|x r]; [reflexivity|].
      cbn [no_num forallb] in Hv. apply andb_prop in Hv as [Hx Hr].
      destruct (dumps_head x Hx) as (c & t & Hd & Ho).
      assert (Hi : exists u, dumps_items (x :: r) = c :: u)
        by (destruct r; cbn [dumps_items]; rewrite Hd; eexists; reflexivity).
      destruct Hi as [u Hu]. rewrite Hu. rewrite <- app_comm_cons, skip_ws_opener by exact Ho.
      replace (ceqb c "]") with false by (unfold opener in Ho; intuition subst; reflexivity).
      rewrite app_comm_cons, <- Hu. apply IH2; [discriminate| |].
      * cbn [no_num forallb]. rewrite Hx, Hr. reflexivity.
      * cbn [length] in Hl. rewrite length_app in Hl. cbn [length] in Hl. lia.
    + rewrite dumps_obj in *.
      replace (("{"%char :: dumps_members l ++ ["}"%char]) ++ rest)
        with ("{"%char :: dumps_members l ++ "}"%char :: rest)
        by (cbn [app]; rewrite <- app_assoc; reflexivity).
      rewrite scan_once_obj.
      destruct l as [|[k x] r]; [reflexivity|].
      assert (Hm : dumps_members ((k, x) :: r) = dq :: tl (dumps_members ((k, x) :: r)))
        by (destruct r; reflexivity).
      rewrite Hm at 1. rewrite <- app_comm_cons, (skip_ws_opener dq) by (unfold opener; tauto).
      cbn [ceqb Ascii.eqb Bool.eqb andb dq]. cbv iota.
      apply (IH3 k x r [] rest Hv). cbn [length] in Hl.
      rewrite length_app in Hl. cbn [length] in Hl. lia.
  - intros l acc rest Hne Hf Hlen. destruct l as [|x r]; [congruence|].
    cbn [forallb] in Hf. apply andb_prop in Hf as [Hx Hr].
    rewrite array_elems_S. destruct r as [|y r].
    + cbn [dumps_items] in *. rewrite IH1 by (exact Hx || lia).
      cbn [skip_ws is_json_ws ceqb Ascii.eqb Bool.eqb andb orb]. cbv iota. reflexivity.
    + change (dumps_items (x :: y :: r)) with (dumps x ++ s_ ", " ++ dumps_items (y :: r)) in *.
      rewrite !length_app in Hlen. change (length (s_ ", ")) with 2 in Hlen.
      rewrite <- !app_assoc, IH1 by (exact Hx || lia).
      change (s_ ", " ++ ?X) with (","%char :: " "%char :: X).
      cbn [skip_ws is_json_ws ceqb Ascii.eqb Bool.eqb andb orb]. cbv iota.
      rewrite skip_ws_items by (discriminate || exact Hr).
      rewrite IH2 by (discriminate || exact Hr || lia).
      cbn [rev]. rewrite <- app_assoc. reflexivity.
  - intros k x r acc rest Hf Hlen. cbn [forallb snd] in Hf. apply andb_prop in Hf as [Hx Hr].
    rewrite members_tl, <- app_assoc, object_members_S. cbn [app].
    rewrite scan_string_encoded.
    cbn [skip_ws is_json_ws ceqb Ascii.eqb Bool.eqb andb orb]. cbv iota.
    rewrite <- app_assoc, skip_ws_dumps, IH1 by (exact Hx || (rewrite members_length in Hlen; lia)).
    destruct r as [|[k' x'] r].
    + cbn [app skip_ws is_json_ws ceqb Ascii.eqb Bool.eqb andb orb]. cbv iota.
      cbn [rev]. reflexivity.
    + cbn [app skip_ws is_json_ws ceqb Ascii.eqb Bool.eqb andb orb]. cbv iota.
      assert (Hm : dumps_members ((k', x') :: r) = dq :: tl (dumps_members ((k', x') :: r)))
        by (destruct r; reflexivity).
      rewrite Hm at 1. cbn [app skip_ws]. change (is_json_ws dq) with false. cbv iota.
      change (ceqb dq dq) with true. cbv iota.
      rewrite IH3.
      * cbn [rev]. rewrite <- app_assoc. reflexivity.
      * exact Hr.
      * rewrite members_length in Hlen. rewrite Hm in Hlen |- *. cbn [length] in *. lia.
Qed.

Lemma json_loads_dumps (v : json) : no_num v = true -> json_loads (dumps v) = Some v.
Proof.
  intros Hv. unfold json_loads.
  rewrite <- (app_nil_r (dumps v)) at 2. rewrite skip_ws_dumps by exact Hv.
  rewrite (proj1 (scan_dumps _) v [] Hv) by lia. reflexivity.
Qed.

Lemma v_list_map {A} (f : json -> option A) (g : A -> json) (l : list A) :
  (forall a, f (g a) = Some a) -> v_list f (map g l) = Some l.
Proof. intros Hfg. induction l as [|a l IH]; [reflexivity|]. cbn. rewrite Hfg, IH. reflexivity. Qed.

Lemma v_opt_list_dump {A} (f : json -> option A) (g : A -> json) (o : option (list A)) :
  (forall a, f (g a) = Some a) -> v_opt_list f (Some (dump_opt_list g o)) = Some o.
Proof. intros Hfg. destruct o as [l|]; [|reflexivity]. cbn. rewrite v_list_map by exact Hfg. reflexivity. Qed.

Lemma forallb_map_no_num {A} (g : A -> json) (l : list A) :
  (forall a, no_num (g a) = true) -> forallb no_num (map g l) = true.
Proof. intros H. induction l as [|a l IH]; [reflexivity|]. cbn. rewrite H, IH. reflexivity. Qed.

Lemma no_num_dump_opt_list {A} (g : A -> json) (o : option (list A)) :
  (forall a, no_num (g a) = true) -> no_num (dump_opt_list g o) = true.
Proof. intros H. destruct o; [apply forallb_map_no_num, H|reflexivity]. Qed.

Lemma no_num_dump_opt_str (o : option pystr) : no_num (dump_opt_str o) = true.
Proof. destruct o; reflexivity. Qed.

Lemma no_num_model_dump (m : MeetingSummary) : no_num (model_dump m) = true.
Proof.
  destruct m. cbn [model_dump no_num forallb snd title summary participants key_points
    decisions action_items transcript].
  rewrite !no_num_dump_opt_list; [reflexivity| | | |].
  all: intros []; cbn; rewrite ?no_num_dump_opt_str; reflexivity.
Qed.

Lemma v_participant_dump (p : Participant) : v_participant (dump_participant p) = Some p.
Proof. destruct p as [[] []]; reflexivity. Qed.

Lemma v_decision_dump (x : Decision) : v_decision (dump_decision x) = Some x.
Proof. destruct x as [? []]; reflexivity. Qed.

Lemma v_action_item_dump (x : ActionItem) : v_action_item (dump_action_item x) = Some x.
Proof. destruct x as [? [] []]; reflexivity. Qed.

Lemma kwargs_model_dump (m : MeetingSummary) :
  match model_dump m with JObj d => meeting_summary_of_kwargs d | _ => None end = Some m.
Proof.
  destruct m as [t s p k ds a tr]. cbv [model_dump meeting_summary_of_kwargs].
  cbn [title summary participants key_points decisions action_items transcript].
  match goal with |- context [dict_get (s_ "title") ?L] => set (D := L) end.
  assert (E1 : dict_get (s_ "title") D = Some (JStr t)) by reflexivity.
  assert (E2 : dict_get (s_ "summary") D = Some (JStr s)) by reflexivity.
  assert (E3 : dict_get (s_ "participants") D = Some (dump_opt_list dump_participant p))
    by reflexivity.
  assert (E4 : dict_get (s_ "key_points") D = Some (dump_opt_list JStr k)) by reflexivity.
  assert (E5 : dict_get (s_ "decisions") D = Some (dump_opt_list dump_decision ds)) by reflexivity.
  assert (E6 : dict_get (s_ "action_items") D = Some (dump_opt_list dump_action_item a))
    by reflexivity.
  assert (E7 : dict_get (s_ "transcript") D = Some (JStr tr)) by reflexivity.
  rewrite E1, E2, E3, E4, E5, E6, E7.
  rewrite (v_opt_list_dump v_participant dump_participant p v_participant_dump).
  rewrite (v_opt_list_dump v_str_item JStr k (fun _ => eq_refl)).
  rewrite (v_opt_list_dump v_decision dump_decision ds v_decision_dump).
  rewrite (v_opt_list_dump v_action_item dump_action_item a v_action_item_dump).
  reflexivity.
Qed.

End RoundTrip.


(** ** Instances of the statements above *)

Lemma update_transcript_empty_is_false_witness :
  Db.update_transcript (s_ "id9") (Some (s_ "error")) None None None (sample_store true None)
    = (Ok false, sample_store true None).
Proof.
  apply (proj2 (update_transcript_empty_is_false (s_ "id1") (sample_store true None)));
    vm_compute; reflexivity.
Defined.

Lemma update_transcript_writes_only_supplied_witness :
  Db.rows (sample_store true None) !! s_ "id1" = Some (sample_row None) /\
  let '(res, db') := Db.update_transcript (s_ "id1") None (Some (s_ "text")) None None
                       (sample_store true None) in
  (forall id', id' <> s_ "id1" -> Db.rows db' !! id' = Db.rows (sample_store true None) !! id').
Proof.
  assert (H : Db.rows (sample_store true None) !! s_ "id1" = Some (sample_row None))
    by (vm_compute; reflexivity).
  split; [exact H|].
  pose proof (update_transcript_writes_only_supplied (s_ "id1") None (Some (s_ "text")) None None
                (sample_store true None) (sample_row None) H) as W.
  destruct (Db.update_transcript _ _ _ _ _ _) as [res db']. exact (proj1 (proj1 W)).
Defined.

Lemma resummarize_without_transcript_witness :
  summarize_existing_transcript sample_env (s_ "id1") (sample_world true None)
    = (Err (HTTPException 400), sample_world true None).
Proof.
  apply (resummarize_without_transcript sample_env (s_ "id1") (sample_world true None) (sample_row None));
    [reflexivity | vm_compute; reflexivity | left; reflexivity].
Defined.



Lemma run_job_store_failure_overwrites_success_witness :
  jobs (snd (_run_transcription_job sample_env (s_ "job1") (Some (s_ "id1")) false
              (sample_world false None))) !! s_ "job1"
    = Some (mkJob (s_ "error") None (Some (str_exc OperationalError))).
Proof.
  apply (run_job_store_failure_overwrites_success sample_env (s_ "job1") (s_ "id1")
           (sample_world false None) [s_ " hello"; s_ "world "]);
    [reflexivity | discriminate | reflexivity].
Defined.

Lemma process_meeting_success_persists_witness :
  sample_submit = (Ok sample_submit_response, snd sample_submit) /\
  resp_status sample_submit_response = s_ "success" /\
  exists (m : MeetingSummary) (r : Db.Row) (parts : list pystr),
    resp_data sample_submit_response = Some m /\
    engine_segments sample_env = Ok parts /\
    transcript m = py_strip (py_join (s_ " ") parts) /\
    Db.rows (store (snd sample_submit)) !! s_ "id2" = Some r /\
    Db.status r = s_ "completed" /\
    Db.transcript r = Some (transcript m).
Proof.
  assert (H : sample_submit = (Ok sample_submit_response, snd sample_submit))
    by (vm_compute; reflexivity).
  assert (Hs : resp_status sample_submit_response = s_ "success") by (vm_compute; reflexivity).
  split; [exact H|]. split; [exact Hs|].
  exact (process_meeting_success_persists sample_env (Some (s_ "a.wav")) true false (s_ "base")
           (s_ "id2") (s_ "now") (sample_world true None) sample_submit_response (snd sample_submit) H Hs).
Defined.

(** * Further properties of the service *)

(** ** Upload validation *)

Module UploadFacts.

Lemma rfind_from_app (c : ascii) (a b : pystr) (i : nat) (f : Z) :
  rfind_from c (a ++ b) i f = rfind_from c b (i + length a) (rfind_from c a i f).
Proof.
  revert i f. induction a as [|x a IH]; intros i f; simpl.
  - by rewrite Nat.add_0_r.
  - rewrite IH. f_equal. lia.
Qed.

Lemma rfind_from_absent (c : ascii) (s : pystr) (i : nat) (f : Z) :
  ~ In c s -> rfind_from c s i f = f.
Proof.
  revert i. induction s as [|x s IH]; intros i Hn; simpl; [reflexivity|].
  replace (ceqb x c) with false.
  - apply IH. intros H. apply Hn. by right.
  - symmetry. apply Ascii.eqb_neq. intros ->. apply Hn. by left.
Qed.

Lemma rfind_from_ge (c : ascii) (s : pystr) (i : nat) (f : Z) :
  (-1 <= f)%Z -> (-1 <= rfind_from c s i f)%Z.
Proof.
  revert i f. induction s as [|x s IH]; intros i f Hf; simpl; [exact Hf|].
  apply IH. destruct (ceqb x c); lia.
Qed.

Lemma ceqb_refl (c : ascii) : ceqb c c = true.
Proof. apply Ascii.eqb_refl. Qed.

(** The last occurrence: [c] at the end of [a ++ [c]], none after it. *)
Lemma py_rfind_last (c : ascii) (a b : pystr) :
  ~ In c b -> py_rfind (a ++ c :: b) c = Z.of_nat (length a).
Proof.
  intros Hb. unfold py_rfind.
  rewrite rfind_from_app. simpl. rewrite ceqb_refl. apply rfind_from_absent, Hb.
Qed.

Lemma py_rfind_absent (c : ascii) (s : pystr) : ~ In c s -> py_rfind s c = (-1)%Z.
Proof. apply rfind_from_absent. Qed.

Lemma py_slice_one (pre r : pystr) (x : ascii) :
  py_slice (pre ++ x :: r) (Z.of_nat (length pre)) (Z.of_nat (length pre) + 1) = [x].
Proof.
  replace (Z.of_nat (length pre) + 1)%Z with (Z.of_nat (length pre + length [x])) by (simpl; lia).
  exact (FenceFacts.py_slice_mid pre [x] r).
Qed.

(** The loop of [_splitext] over the characters [rest] before the dot. *)
Lemma splitext_loop_scan (fuel : nat) (pre rest tail : pystr) :
  length rest < fuel ->
  splitext_loop fuel (pre ++ rest ++ tail) (Z.of_nat (length pre))
    (Z.of_nat (length pre + length rest))
  = existsb (fun x => negb (ceqb x "."%char)) rest.
Proof.
  revert fuel pre. induction rest as [|x rest IH]; intros fuel pre Hf.
  - destruct fuel as [|f]; [lia|]. simpl. rewrite Nat.add_0_r, Z.ltb_irrefl. reflexivity.
  - destruct fuel as [|f]; [simpl in Hf; lia|]. cbn [length] in *. simpl splitext_loop.
    rewrite (proj2 (Z.ltb_lt (Z.of_nat (length pre)) (Z.of_nat (length pre + S (length rest))))) by lia.
    cbn [app] in *. rewrite py_slice_one.
    simpl existsb.
    destruct (ceqb x "."%char) eqn:Hx.
    + apply Ascii.eqb_eq in Hx as ->. rewrite bool_decide_true by reflexivity. simpl.
      specialize (IH f (pre ++ ["."%char])). rewrite <- app_assoc in IH. simpl in IH.
      rewrite length_app in IH. simpl in IH.
      replace (Z.of_nat (length pre) + 1)%Z with (Z.of_nat (length pre + 1)) by lia.
      replace (length pre + S (length rest)) with (length pre + 1 + length rest) by lia.
      apply IH. simpl in Hf. lia.
    + rewrite bool_decide_false; [reflexivity|].
      intros [=Heq]. subst x. rewrite ceqb_refl in Hx. discriminate.
Qed.

Lemma lower_char_not_dot (c : ascii) : c <> "."%char -> lower_char c <> "."%char.
Proof.
  intros Hc. unfold lower_char.
  destruct (_ || _) eqn:E; [|exact Hc].
  intros Heq. apply (f_equal nat_of_ascii) in Heq.
  unfold ord in *. set (n := nat_of_ascii c) in *.
  assert (n < 256) by apply nat_ascii_bounded.
  apply orb_true_iff in E as [E|E].
  - apply andb_true_iff in E as [E1 E2]. apply Nat.leb_le in E1, E2.
    rewrite nat_ascii_embedding in Heq by lia. change (nat_of_ascii "."%char) with 46 in Heq. lia.
  - apply andb_true_iff in E as [[E1 E2]%andb_true_iff _]. apply Nat.leb_le in E1, E2.
    rewrite nat_ascii_embedding in Heq by lia. change (nat_of_ascii "."%char) with 46 in Heq. lia.
Qed.

Lemma lstrip_dot_lower (ext : pystr) :
  ~ In "."%char ext -> py_lstrip_chars (s_ ".") (py_lower ext) = py_lower ext.
Proof.
  intros Hn. destruct ext as [|c ext]; [reflexivity|]. simpl.
  replace (ceqb (lower_char c) "."%char) with false; [reflexivity|].
  symmetry. apply Ascii.eqb_neq. apply lower_char_not_dot. intros ->. apply Hn. by left.
Qed.

Lemma splitext_ext (stem ext : pystr) :
  ~ In "/"%char stem -> ~ In "/"%char ext -> ~ In "."%char ext ->
  splitext (stem ++ "."%char :: ext) =
  if existsb (fun x => negb (ceqb x "."%char)) stem then (stem, "."%char :: ext)
  else (stem ++ "."%char :: ext, []).
Proof.
  intros Hs He Hd. unfold splitext.
  rewrite py_rfind_last by exact Hd.
  rewrite py_rfind_absent
    by (intros H; apply in_app_or in H as [H|[H|H]]; [apply Hs, H|discriminate|apply He, H]).
  replace (-1 <? Z.of_nat (length stem))%Z with true by (symmetry; apply Z.ltb_lt; lia).
  simpl andb. replace (-1 + 1)%Z with (Z.of_nat (length (@nil ascii))) by reflexivity.
  replace (Z.of_nat (length stem)) with (Z.of_nat (length (@nil ascii) + length stem)) at 2
    by reflexivity.
  rewrite (splitext_loop_scan _ [] stem ("."%char :: ext)) by (rewrite length_app; simpl; lia).
  destruct (existsb _ stem); [|reflexivity].
  f_equal.
  - rewrite <- (app_nil_l (stem ++ _)).
    replace 0%Z with (Z.of_nat (length (@nil ascii))) by reflexivity.
    replace (Z.of_nat (length stem)) with (Z.of_nat (length (@nil ascii) + length stem)) by reflexivity.
    apply FenceFacts.py_slice_mid.
  - apply FenceFacts.py_slice_tail.
Qed.

Lemma splitext_no_dot (fn : pystr) : ~ In "."%char fn -> splitext fn = (fn, []).
Proof.
  intros Hn. unfold splitext. rewrite (py_rfind_absent "."%char fn Hn).
  pose proof (rfind_from_ge "/"%char fn 0 (-1) ltac:(lia)).
  unfold py_rfind. replace (rfind_from "/" fn 0 (-1) <? -1)%Z with false
    by (symmetry; apply Z.ltb_ge; lia). reflexivity.
Qed.

Lemma size_check (n : N) :
  QArith_base.Qle_bool (QArith_base.Qmake (Z.of_N n) (1024 * 1024))
    (QArith_base.inject_Z max_file_size_mb) = (n <=? 26214400)%N.
Proof.
  unfold QArith_base.Qle_bool, max_file_size_mb. simpl. rewrite Z.mul_1_r.
  destruct (N.leb_spec n 26214400); [apply Z.leb_le | apply Z.leb_gt]; lia.
Qed.

End UploadFacts.

(** A filename [stem.ext] whose stem has a character other than a dot and no
    slash, and whose extension has no dot or slash, is accepted by
    [_save_upload_file] exactly when the lower-cased extension is one of
    mp3, wav, m4a, webm and the content is at most 25 MiB (26214400 bytes). *)
Theorem upload_accepted_extension (stem ext : pystr) (n : N) :
  ~ In "/"%char stem -> ~ In "/"%char ext -> ~ In "."%char ext ->
  (exists c, In c stem /\ c <> "."%char) ->
  upload_accepted (stem ++ "."%char :: ext) n =
    py_in (py_lower ext) allowed_extensions && (n <=? 26214400)%N.
Proof.
  intros Hs He Hd [c [Hc Hcd]].
  unfold upload_accepted, save_upload_checks, file_ext_of.
  rewrite UploadFacts.splitext_ext by assumption.
  replace (existsb _ stem) with true.
  2:{ symmetry. apply existsb_exists. exists c. split; [exact Hc|].
      apply negb_true_iff, Ascii.eqb_neq, Hcd. }
  simpl snd.
  replace (py_lstrip_chars (s_ ".") (py_lower ("."%char :: ext))) with (py_lower ext).
  2:{ change (py_lower ("."%char :: ext)) with (lower_char "."%char :: py_lower ext).
      replace (lower_char "."%char) with "."%char by reflexivity.
      cbn [py_lstrip_chars]. replace (existsb (ceqb ".") (s_ ".")) with true by reflexivity.
      symmetry. apply UploadFacts.lstrip_dot_lower, Hd. }
  destruct (py_in (py_lower ext) allowed_extensions); [|reflexivity]. simpl.
  rewrite UploadFacts.size_check. destruct (n <=? 26214400)%N; reflexivity.
Qed.

(** A filename with no dot, or whose only dot-separated part after a stem of
    dots is the extension (a dotfile such as [.wav]), is refused whatever
    its size: [os.path.splitext] gives it no extension. *)
Theorem upload_without_extension_refused (fn : pystr) (n : N) :
  (~ In "."%char fn \/
   exists stem ext, fn = stem ++ "."%char :: ext /\ Forall (fun c => c = "."%char) stem /\
     ~ In "/"%char stem /\ ~ In "/"%char ext /\ ~ In "."%char ext) ->
  upload_accepted fn n = false.
Proof.
  intros [Hn | (stem & ext & -> & Hdots & Hs & He & Hd)];
    unfold upload_accepted, save_upload_checks, file_ext_of.
  - rewrite UploadFacts.splitext_no_dot by exact Hn. reflexivity.
  - rewrite UploadFacts.splitext_ext by assumption.
    replace (existsb _ stem) with false; [reflexivity|].
    symmetry. apply not_true_iff_false. intros [x [Hx Hnx]]%existsb_exists.
    rewrite List.Forall_forall in Hdots. rewrite (Hdots x Hx) in Hnx. discriminate.
Qed.

(** ** Transcript records and their endpoints *)

Module ListFacts.

Lemma text_leb_total (a b : pystr) : Db.text_leb a b = true \/ Db.text_leb b a = true.
Proof.
  revert b. induction a as [|x a IH]; intros [|y b]; simpl; auto.
  destruct (lt_eq_lt_dec (ord x) (ord y)) as [[Hlt|Heq]|Hgt].
  - left. apply orb_true_iff. left. by apply Nat.ltb_lt.
  - rewrite Heq, Nat.ltb_irrefl, Nat.eqb_refl. simpl.
    destruct (IH b); auto.
  - right. apply orb_true_iff. left. by apply Nat.ltb_lt.
Qed.

Lemma text_leb_trans (a b c : pystr) :
  Db.text_leb a b = true -> Db.text_leb b c = true -> Db.text_leb a c = true.
Proof.
  revert b c. induction a as [|x a IH]; intros [|y b] [|z c]; simpl; auto; try discriminate.
  intros [H1|[H1 H2]%andb_true_iff]%orb_true_iff [H3|[H3 H4]%andb_true_iff]%orb_true_iff;
    apply Nat.ltb_lt in H1 || apply Nat.eqb_eq in H1;
    apply Nat.ltb_lt in H3 || apply Nat.eqb_eq in H3; apply orb_true_iff.
  - left. apply Nat.ltb_lt. lia.
  - left. apply Nat.ltb_lt. lia.
  - left. apply Nat.ltb_lt. lia.
  - right. apply andb_true_iff. split; [apply Nat.eqb_eq; lia | eauto].
Qed.

Global Instance newer_first_total : Total Db.newer_first.
Proof. intros a b. unfold Db.newer_first. destruct (text_leb_total (Db.created_at (snd b)) (Db.created_at (snd a))); auto. Qed.

Global Instance newer_first_trans : Transitive Db.newer_first.
Proof. intros a b c H1 H2. unfold Db.newer_first in *. eauto using text_leb_trans. Qed.

Lemma StronglySorted_map {A B} (R : relation A) (R' : relation B) (f : A -> B) (l : list A) :
  (forall a b, R a b -> R' (f a) (f b)) -> StronglySorted R l -> StronglySorted R' (map f l).
Proof.
  intros HR Hs. induction Hs as [|a l Hs IH Hf]; simpl; constructor; [exact IH|].
  apply List.Forall_map. eapply List.Forall_impl; [|exact Hf]. auto.
Qed.

Lemma StronglySorted_take_drop {A} (R : relation A) (n k : nat) (l : list A) :
  StronglySorted R l -> StronglySorted R (take n (drop k l)).
Proof.
  intros Hs. rewrite <- (take_drop k l) in Hs. apply StronglySorted_app_1_r in Hs.
  rewrite <- (take_drop n (drop k l)) in Hs. apply StronglySorted_app_1_l in Hs. exact Hs.
Qed.

Lemma map_is_fmap {A B} (f : A -> B) (l : list A) : map f l = f <$> l.
Proof. induction l as [|a l IH]; [reflexivity|]. cbn. by rewrite IH. Qed.

Lemma li_id_list_item (p : pystr * Db.Row) : Db.li_id (Db.list_item p) = fst p.
Proof. by destruct p. Qed.

Lemma li_created_at_list_item (p : pystr * Db.Row) :
  Db.li_created_at (Db.list_item p) = Db.created_at (snd p).
Proof. by destruct p. Qed.

End ListFacts.

(** [db.create_transcript] on an available database adds one row under a
    fresh id, with the display name set to the original filename and no
    transcript, summary or error, and leaves every other row alone; under
    an existing id it raises an integrity error and writes nothing. *)
Theorem create_transcript_then_get (id now fn m st : pystr) (db : Db.Store) :
  Db.up db = true ->
  (Db.rows db !! id = None ->
   let '(res, db') := Db.create_transcript id now fn m st db in
   res = Ok id /\
   fst (Db.get_transcript id db') = Ok (Some (Db.mkRow now fn fn m st None None None)) /\
   fst (Db.count_transcripts db') = Ok (S (size (Db.rows db))) /\
   (forall id', id' <> id -> Db.rows db' !! id' = Db.rows db !! id')) /\
  (Db.rows db !! id <> None -> Db.create_transcript id now fn m st db = (Err IntegrityError, db)).
Proof.
  intros Hup. unfold Db.create_transcript. rewrite Hup. simpl. split.
  - intros Hn. rewrite Hn. simpl. split; [reflexivity|].
    unfold Db.get_transcript, Db.count_transcripts. simpl. rewrite Hup. simpl.
    split; [by rewrite lookup_insert_eq|]. split; [by rewrite map_size_insert_None|].
    intros id' Hne. by rewrite lookup_insert_ne by congruence.
  - intros Hs. destruct (Db.rows db !! id); [reflexivity | congruence].
Qed.

(** Deleting an existing transcript through the API answers [deleted];
    afterwards fetching or deleting it again answers 404, and the other
    rows and the job table are unchanged. *)
Theorem delete_endpoint_then_get (id : pystr) (w : World) (r : Db.Row) :
  Db.up (store w) = true -> Db.rows (store w) !! id = Some r ->
  let '(res, w1) := Main.delete_transcript id w in
  res = Ok (s_ "deleted") /\
  Main.get_transcript id w1 = (Err (HTTPException 404), w1) /\
  Main.delete_transcript id w1 = (Err (HTTPException 404), w1) /\
  (forall id', id' <> id -> Db.rows (store w1) !! id' = Db.rows (store w) !! id') /\
  jobs w1 = jobs w.
Proof.
  intros Hup Hr. unfold Main.delete_transcript, bind, on_db, Db.delete_transcript.
  rewrite Hup, Hr. simpl. split; [reflexivity|].
  unfold Main.get_transcript, bind, on_db, Db.get_transcript, Db.delete_transcript. simpl.
  rewrite Hup, lookup_delete_eq. simpl. repeat split.
  intros id' Hne. by rewrite lookup_delete_ne by congruence.
Qed.

(** Renaming through the API answers 404 and writes nothing for an unknown
    id; for a known id it answers [updated], changes only the display name
    of that row, and leaves the other rows alone. *)
Theorem rename_endpoint (id name : pystr) (w : World) :
  Db.up (store w) = true ->
  match Db.rows (store w) !! id with
  | None => Main.update_transcript id name w = (Err (HTTPException 404), w)
  | Some r =>
      let '(res, w1) := Main.update_transcript id name w in
      res = Ok (s_ "updated") /\
      fst (Main.get_transcript id w1) =
        Ok (Db.mkRow (Db.created_at r) (Db.original_filename r) name (Db.model r) (Db.status r)
                     (Db.transcript r) (Db.summary_json r) (Db.error r)) /\
      (forall id', id' <> id -> Db.rows (store w1) !! id' = Db.rows (store w) !! id')
  end.
Proof.
  intros Hup. unfold Main.update_transcript, bind, on_db, Db.update_transcript_name.
  rewrite Hup. simpl. destruct (Db.rows (store w) !! id) as [r|] eqn:Hr; simpl.
  - split; [reflexivity|].
    unfold Main.get_transcript, bind, on_db, Db.get_transcript. simpl. rewrite Hup.
    rewrite lookup_insert_eq. simpl. split; [reflexivity|].
    intros id' Hne. by rewrite lookup_insert_ne by congruence.
  - by rewrite world_eta.
Qed.

(** Listing through the API with 1 <= limit <= 100 and offset >= 0 writes
    nothing and returns the total row count and a page of
    min(limit, total - offset) distinct rows of the table, newest first;
    other parameters are refused with 422 before the database is read. *)
Theorem list_endpoint_page (limit offset : Z) (w : World) :
  Db.up (store w) = true ->
  (((1 <= limit <= 100)%Z /\ (0 <= offset)%Z) ->
   let '(res, w1) := Main.list_transcripts limit offset w in
   w1 = w /\
   exists resp, res = Ok resp /\
     Main.total resp = size (Db.rows (store w)) /\
     length (Main.transcripts resp) =
       Nat.min (Z.to_nat limit) (size (Db.rows (store w)) - Z.to_nat offset) /\
     StronglySorted (fun a b => Db.text_leb (Db.li_created_at b) (Db.li_created_at a) = true)
       (Main.transcripts resp) /\
     NoDup (map Db.li_id (Main.transcripts resp)) /\
     (forall it, In it (Main.transcripts resp) ->
        exists r, Db.rows (store w) !! Db.li_id it = Some r /\ it = Db.list_item (Db.li_id it, r))) /\
  (~ ((1 <= limit <= 100)%Z /\ (0 <= offset)%Z) ->
   Main.list_transcripts limit offset w = (Err (HTTPException 422), w)).
Proof.
  intros Hup. split.
  - intros [Hl Ho]. unfold Main.list_transcripts.
    replace ((1 <=? limit) && (limit <=? 100) && (0 <=? offset))%Z with true
      by (symmetry; repeat rewrite andb_true_iff; rewrite !Z.leb_le; lia).
    simpl. unfold bind, on_db, Db.list_transcripts, Db.count_transcripts, ret.
    rewrite Hup. simpl. rewrite Hup. simpl. rewrite world_eta. split; [reflexivity|].
    eexists. split; [reflexivity|]. simpl.
    set (S := merge_sort Db.newer_first (map_to_list (Db.rows (store w)))).
    assert (HP : S ≡ₚ map_to_list (Db.rows (store w))) by apply merge_sort_Permutation.
    assert (HS : StronglySorted Db.newer_first S) by (apply StronglySorted_merge_sort; apply _).
    unfold Db.limit_offset.
    replace (limit <? 0)%Z with false by (symmetry; apply Z.ltb_ge; lia).
    assert (Hsub : take (Z.to_nat limit) (drop (Z.to_nat offset) S) `sublist_of` S).
    { transitivity (drop (Z.to_nat offset) S); [apply sublist_take | apply sublist_drop]. }
    split; [reflexivity|]. split.
    { rewrite length_map, length_take, length_drop, (Permutation_length HP), length_map_to_list.
      reflexivity. }
    split.
    { eapply ListFacts.StronglySorted_map; [|apply ListFacts.StronglySorted_take_drop, HS].
      intros a b Hab. rewrite !ListFacts.li_created_at_list_item. exact Hab. }
    split.
    { rewrite map_map.
      replace (map (fun x => Db.li_id (Db.list_item x)) _) with
        (fst <$> take (Z.to_nat limit) (drop (Z.to_nat offset) S))
        by (rewrite <- ListFacts.map_is_fmap; apply map_ext; intros; by rewrite ListFacts.li_id_list_item).
      eapply sublist_NoDup; [|apply (fmap_sublist fst), Hsub].
      rewrite HP. apply NoDup_fst_map_to_list. }
    intros it Hit. apply in_map_iff in Hit as [[i r] [<- Hin]].
    exists r. simpl. split; [|reflexivity].
    apply elem_of_map_to_list. rewrite <- HP.
    eapply elem_of_sublist; [|exact Hsub]. by apply list_elem_of_In.
  - intros Hn. unfold Main.list_transcripts.
    replace ((1 <=? limit) && (limit <=? 100) && (0 <=? offset))%Z with false; [reflexivity|].
    symmetry. apply not_true_iff_false. repeat rewrite andb_true_iff. rewrite !Z.leb_le. lia.
Qed.

(** ** Jobs, submissions and their outcomes *)

Module JobFacts.

(** The [completed] or [error] write on a row that exists. *)
Lemma update_existing (d : pystr) st tr sj er (db : Db.Store) (r : Db.Row) :
  Db.up db = true -> Db.rows db !! d = Some r -> st <> None ->
  Db.update_transcript d st tr sj er db =
    (Ok true, Db.with_rows db (<[d := Db.set_fields st tr sj er r]> (Db.rows db))).
Proof.
  intros Hup Hr Hst. unfold Db.update_transcript. rewrite Hup, Hr.
  destruct st; [|congruence]. reflexivity.
Qed.

Lemma run_job_outcome (env : Env) (job_id d : pystr) (summarize : bool) (w : World) (r : Db.Row) :
  Db.up (store w) = true -> Db.rows (store w) !! d = Some r -> d <> [] ->
  let '(res, w') := _run_transcription_job env job_id (Some d) summarize w in
  res = Ok tt /\ Db.up (store w') = true /\
  (forall id', id' <> d -> Db.rows (store w') !! id' = Db.rows (store w) !! id') /\
  exists j r', jobs w' !! job_id = Some j /\ Db.rows (store w') !! d = Some r' /\
    ((job_status j = s_ "success" /\ Db.status r' = s_ "completed" /\ summarize = false /\
      option_map transcript (job_data j) = Db.transcript r') \/
     (job_status j = s_ "error" /\ Db.status r' = s_ "error" /\ Db.error r' = job_error j)).
Proof.
  intros Hup Hr Hd. destruct d as [|c d]; [congruence|].
  unfold _run_transcription_job, try_except, bind, transcribe_audio.
  destruct (engine_segments env) as [parts|e]; simpl.
  - destruct summarize; simpl.
    + unfold bind.
      match goal with
      | |- context [summarize_meeting env ?t w] =>
          destruct (summarize_meeting_model env t w) as [[m ->] | [e ->]]; simpl
      end.
      all: unfold on_db; cbn -[Db.update_transcript]; rewrite (update_existing _ _ _ _ _ _ r Hup Hr) by discriminate; simpl;
      (split; [reflexivity|]); (split; [exact Hup|]);
      (split; [intros id' Hne; by rewrite lookup_insert_ne by congruence|]);
      do 2 eexists; rewrite lookup_insert_eq, lookup_insert_eq;
      (split; [reflexivity|]); (split; [reflexivity|]); right; repeat split.
    + unfold on_db; cbn -[Db.update_transcript]. rewrite (update_existing _ _ _ _ _ _ r Hup Hr) by discriminate; simpl.
      split; [reflexivity|]. split; [exact Hup|].
      split; [intros id' Hne; by rewrite lookup_insert_ne by congruence|].
      do 2 eexists. rewrite lookup_insert_eq, lookup_insert_eq.
      split; [reflexivity|]. split; [reflexivity|]. left. repeat split.
  - unfold on_db; cbn -[Db.update_transcript]. rewrite (update_existing _ _ _ _ _ _ r Hup Hr) by discriminate; simpl.
    split; [reflexivity|]. split; [exact Hup|].
    split; [intros id' Hne; by rewrite lookup_insert_ne by congruence|].
    do 2 eexists. rewrite lookup_insert_eq, lookup_insert_eq.
    split; [reflexivity|]. split; [reflexivity|]. right. repeat split.
Qed.

End JobFacts.


(** An accepted synchronous submission with a valid model on an available
    database always answers with a response, creates its row and touches
    no other row; the response is [success] with a completed row holding the
    same transcript (only without summarisation), or [error] with no data
    and the row in error holding the same error text. *)
Theorem process_meeting_outcome (env : Env) (filename : option pystr) (summarize : bool)
    (model new_id now : pystr) (w : World) :
  Db.up (store w) = true -> Db.rows (store w) !! new_id = None ->
  py_in model AVAILABLE_MODELS = true ->
  exists resp w' r,
    process_meeting env filename true summarize model new_id now w = (Ok resp, w') /\
    Db.rows (store w') !! new_id = Some r /\
    (forall id', id' <> new_id -> Db.rows (store w') !! id' = Db.rows (store w) !! id') /\
    ((resp_status resp = s_ "success" /\ Db.status r = s_ "completed" /\ summarize = false /\
      option_map transcript (resp_data resp) = Db.transcript r) \/
     (resp_status resp = s_ "error" /\ Db.status r = s_ "error" /\
      Db.error r = resp_error resp /\ resp_data resp = None)).
Proof.
  intros Hup Hn Hm. unfold process_meeting. rewrite Hm. simpl negb. cbv iota.
  unfold _save_upload_file, bind at 1, ret at 1, bind at 1, on_db at 1.
  cbn -[Db.create_transcript Db.update_transcript s_ py_strip py_join build_summary serialize].
  match goal with |- context [Db.create_transcript ?i ?n ?f ?mo ?s ?db] =>
    destruct (Db.create_transcript i n f mo s db) as [[d|e] db1] eqn:Hc;
    [| unfold Db.create_transcript in Hc; rewrite Hup, Hn in Hc; discriminate];
    pose proof Hc as Hc';
    apply create_transcript_ok in Hc as (-> & _ & Hrow & Hup1)
  end.
  assert (Hrest : forall id', id' <> new_id -> Db.rows db1 !! id' = Db.rows (store w) !! id').
  { intros id' Hne. unfold Db.create_transcript in Hc'. rewrite Hup, Hn in Hc'.
    injection Hc' as <-. cbn. by rewrite lookup_insert_ne by congruence. }
  unfold try_except, bind, transcribe_audio.
  destruct (engine_segments env) as [parts|e]; cbn -[Db.update_transcript s_ py_strip py_join serialize].
  - destruct summarize; cbn -[Db.update_transcript s_ py_strip py_join serialize].
    + unfold bind.
      match goal with
      | |- context [summarize_meeting env ?t ?w1] =>
          destruct (summarize_meeting_model env t w1) as [[m ->] | [e ->]]
      end;
      unfold on_db; cbn -[Db.update_transcript s_ py_strip py_join serialize];
      rewrite (JobFacts.update_existing _ _ _ _ _ _ _ Hup1 Hrow) by discriminate;
      do 3 eexists; (split; [reflexivity|]); cbn; rewrite lookup_insert_eq;
      (split; [reflexivity|]);
      (split; [intros id' Hne; rewrite lookup_insert_ne by congruence; auto|]);
      right; repeat split.
    + unfold on_db; cbn -[Db.update_transcript s_ py_strip py_join serialize].
      rewrite (JobFacts.update_existing _ _ _ _ _ _ _ Hup1 Hrow) by discriminate.
      do 3 eexists. split; [reflexivity|]. cbn. rewrite lookup_insert_eq.
      split; [reflexivity|].
      split; [intros id' Hne; rewrite lookup_insert_ne by congruence; auto|].
      left. repeat split.
  - unfold raise, on_db; cbn -[Db.update_transcript s_ py_strip py_join serialize].
    rewrite (JobFacts.update_existing _ _ _ _ _ _ _ Hup1 Hrow) by discriminate.
    do 3 eexists. split; [reflexivity|]. cbn. rewrite lookup_insert_eq.
    split; [reflexivity|].
    split; [intros id' Hne; rewrite lookup_insert_ne by congruence; auto|].
    right. repeat split.
Qed.

(** Any request that asks for a summary ends in error: the synchronous
    handler never answers [success] with summarisation on, and a
    background job with summarisation on always records [error] last. *)
Theorem summarize_requests_never_succeed (env : Env) (filename : option pystr) (accepted : bool)
    (model new_id now job_id : pystr) (db_id : option pystr) (w : World) :
  (forall resp w', process_meeting env filename accepted true model new_id now w = (Ok resp, w') ->
     resp_status resp = s_ "error") /\
  exists j, last (job_history (snd (_run_transcription_job env job_id db_id true w)))
              = Some (job_id, j) /\ job_status j = s_ "error".
Proof.
  split.
  - intros resp w' H. unfold process_meeting in H.
    destruct (negb (py_in model AVAILABLE_MODELS)); [discriminate|].
    unfold _save_upload_file in H. destruct accepted; [|discriminate].
    unfold bind at 1, ret at 1, bind at 1, on_db at 1 in H.
    cbn -[Db.create_transcript Db.update_transcript s_ py_strip py_join serialize] in H.
    match type of H with context [Db.create_transcript ?i ?n ?f ?mo ?s ?db] =>
      destruct (Db.create_transcript i n f mo s db) as [[d|e] db1]; [|discriminate] end.
    unfold try_except, bind, transcribe_audio in H.
    destruct (engine_segments env) as [parts|e];
      cbn -[Db.update_transcript s_ py_strip py_join serialize] in H.
    + unfold bind in H.
      match type of H with
      | context [summarize_meeting env ?t ?w1] =>
          destruct (summarize_meeting_model env t w1) as [[m Hs] | [e Hs]]; rewrite Hs in H
      end;
      unfold on_db in H; cbn -[Db.update_transcript s_ py_strip py_join serialize] in H;
      match type of H with context [Db.update_transcript ?i ?st ?tr ?sj ?er ?db] =>
        destruct (Db.update_transcript i st tr sj er db) as [[b|e'] db2] end;
      cbn in H; first [discriminate | injection H as <- _; reflexivity].
    + unfold raise, on_db in H; cbn -[Db.update_transcript s_ py_strip py_join serialize] in H.
      match type of H with context [Db.update_transcript ?i ?st ?tr ?sj ?er ?db] =>
        destruct (Db.update_transcript i st tr sj er db) as [[b|e'] db2] end;
      cbn in H; first [discriminate | injection H as <- _; reflexivity].
  - unfold _run_transcription_job, try_except, bind, transcribe_audio.
    destruct (engine_segments env) as [parts|e]; cbn -[Db.update_transcript s_ py_strip py_join serialize].
    + unfold bind.
      match goal with
      | |- context [summarize_meeting env ?t w] =>
          destruct (summarize_meeting_model env t w) as [[m ->] | [e ->]]
      end;
      cbn -[Db.update_transcript s_ py_strip py_join serialize];
      (destruct db_id as [[|c d]|]; cbn -[Db.update_transcript s_ py_strip py_join serialize];
       [| unfold on_db; cbn -[Db.update_transcript s_ py_strip py_join serialize];
          match goal with |- context [Db.update_transcript ?i ?st ?tr ?sj ?er ?db] =>
            destruct (Db.update_transcript i st tr sj er db) as [[b|e'] db2] end |]);
      cbn; eexists; (split; [apply last_snoc | reflexivity]).
    + destruct db_id as [[|c d]|]; cbn -[Db.update_transcript s_ py_strip py_join serialize];
      [| unfold on_db; cbn -[Db.update_transcript s_ py_strip py_join serialize];
         match goal with |- context [Db.update_transcript ?i ?st ?tr ?sj ?er ?db] =>
           destruct (Db.update_transcript i st tr sj er db) as [[b|e'] db2] end |];
      cbn; eexists; (split; [apply last_snoc | reflexivity]).
Qed.


(** ** Models, transcription text, extraction and serialisation *)


Module TrimFacts.

Lemma py_lstrip_split (s : pystr) : exists p, s = p ++ py_lstrip s.
Proof.
  induction s as [|c s [p Hp]]; [exists []; reflexivity|]. simpl.
  destruct (py_isspace c); [exists (c :: p); simpl; congruence | exists []; reflexivity].
Qed.

Lemma py_lstrip_head (s : pystr) (c : ascii) : head (py_lstrip s) = Some c -> py_isspace c = false.
Proof.
  induction s as [|x s IH]; simpl; [discriminate|].
  destruct (py_isspace x) eqn:Hx; [exact IH|]. simpl. congruence.
Qed.

Lemma head_app_l {A} (l k : list A) (x : A) : head l = Some x -> head (l ++ k) = Some x.
Proof. destruct l; simpl; congruence. Qed.

Lemma last_rev {A} (l : list A) : last (rev l) = head l.
Proof. destruct l as [|x l]; [reflexivity|]. simpl. apply last_snoc. Qed.

Lemma py_strip_ends (s : pystr) (c : ascii) :
  (head (py_strip s) = Some c -> py_isspace c = false) /\
  (last (py_strip s) = Some c -> py_isspace c = false).
Proof.
  unfold py_strip. split.
  - intros Hh. set (L := py_lstrip s) in *.
    destruct (py_lstrip_split (rev L)) as [p Hp].
    assert (HL : L = rev (py_lstrip (rev L)) ++ rev p).
    { rewrite <- rev_app_distr, <- Hp, rev_involutive. reflexivity. }
    apply (py_lstrip_head s). fold L. rewrite HL. apply head_app_l, Hh.
  - intros Hl. rewrite last_rev in Hl. by apply py_lstrip_head in Hl.
Qed.

End TrimFacts.


Module SliceFacts.

Lemma take_pred_length {A} (b : list A) : take (length b - 1) b = removelast b.
Proof.
  induction b as [|x b IH]; [reflexivity|].
  destruct b as [|y b]; [reflexivity|].
  cbn [length] in *. replace (S (S (length b)) - 1) with (S (S (length b) - 1)) by lia.
  cbn [take removelast]. f_equal. exact IH.
Qed.

Lemma py_slice_to_minus_one (pre b : pystr) :
  py_slice (pre ++ b) (Z.of_nat (length pre)) (-1) = removelast b.
Proof.
  unfold py_slice. rewrite length_app.
  rewrite (FenceFacts.norm_index_in _ (Z.of_nat (length pre))) by lia.
  unfold norm_index. replace (-1 <? 0)%Z with true by reflexivity.
  replace (Z.to_nat (Z.max 0 (-1 + Z.of_nat (length pre + length b)) - Z.of_nat (length pre)))
    with (length b - 1) by lia.
  rewrite Nat2Z.id, drop_app_length. apply take_pred_length.
Qed.

End SliceFacts.


Module AsciiFacts.

Definition printable (c : ascii) : Prop := 32 <= ord c <= 126.

Lemma hexdig_printable (k : nat) : k < 16 -> printable (hexdig k).
Proof.
  intros Hk. unfold printable, ord, hexdig.
  destruct (k <? 10) eqn:E; [apply Nat.ltb_lt in E | apply Nat.ltb_ge in E];
    rewrite nat_ascii_embedding by lia; lia.
Qed.

Ltac lit := unfold printable, ord; cbv; lia.

Lemma escape_char_printable (c : ascii) : Forall printable (escape_char c).
Proof.
  unfold escape_char.
  destruct (ceqb c dq); [repeat constructor; lit|].
  destruct (ceqb c "\"); [repeat constructor; lit|].
  destruct (ceqb c "010"); [repeat constructor; lit|].
  destruct (ceqb c "013"); [repeat constructor; lit|].
  destruct (ceqb c "009"); [repeat constructor; lit|].
  destruct (ceqb c "008"); [repeat constructor; lit|].
  destruct (ceqb c "012"); [repeat constructor; lit|].
  pose proof (nat_ascii_bounded c) as Hc.
  destruct ((ord c <? 32) || (126 <? ord c)) eqn:E.
  - do 4 (constructor; [lit|]).
    constructor; [apply hexdig_printable; unfold ord; apply Nat.Div0.div_lt_upper_bound; lia|].
    constructor; [apply hexdig_printable; unfold ord; apply Nat.mod_upper_bound; lia|].
    constructor.
  - apply orb_false_iff in E as [E1 E2]. apply Nat.ltb_ge in E1, E2.
    constructor; [|constructor]. unfold printable. lia.
Qed.

Lemma encode_string_printable (t : pystr) : Forall printable (encode_string t).
Proof.
  unfold encode_string. constructor; [lit|]. apply Forall_app. split; [|constructor; [lit|constructor]].
  induction t as [|c t IH]; [constructor|]. simpl. apply Forall_app. split; [apply escape_char_printable|exact IH].
Qed.

Lemma dumps_items_cons (x : json) (r : list json) :
  dumps_items (x :: r) = dumps x ++ match r with [] => [] | _ => s_ ", " ++ dumps_items r end.
Proof. destruct r; simpl; rewrite ?app_nil_r; reflexivity. Qed.

Lemma dumps_members_cons (k : pystr) (x : json) (r : list (pystr * json)) :
  dumps_members ((k, x) :: r) =
    encode_string k ++ s_ ": " ++ dumps x ++
    match r with [] => [] | _ => s_ ", " ++ dumps_members r end.
Proof. destruct r; simpl; rewrite ?app_nil_r; reflexivity. Qed.

Lemma sep_printable (r : pystr) (A : Type) (l : list A) :
  Forall printable r ->
  Forall printable (match l with [] => [] | _ => s_ ", " ++ r end).
Proof. intros H. destruct l; [constructor|]. apply Forall_app. split; [repeat constructor; lit|exact H]. Qed.

Lemma dumps_printable : forall v, no_num v = true -> Forall printable (dumps v).
Proof.
  fix IH 1. intros v Hv. destruct v as [| b | lex | t | l | l].
  - repeat constructor; lit.
  - destruct b; repeat constructor; lit.
  - discriminate.
  - apply encode_string_printable.
  - rewrite RoundTrip.dumps_arr. constructor; [lit|]. apply Forall_app. split; [|constructor; [lit|constructor]].
    cbn [no_num] in Hv. revert l Hv. fix IHl 1. intros [|x r] Hl; [constructor|].
    cbn [forallb] in Hl. apply andb_prop in Hl as [Hx Hr].
    rewrite dumps_items_cons. apply Forall_app. split; [exact (IH x Hx)|].
    apply sep_printable, (IHl r Hr).
  - rewrite RoundTrip.dumps_obj. constructor; [lit|]. apply Forall_app. split; [|constructor; [lit|constructor]].
    cbn [no_num] in Hv. revert l Hv. fix IHl 1. intros [|[k x] r] Hl; [constructor|].
    cbn [forallb snd] in Hl. apply andb_prop in Hl as [Hx Hr].
    rewrite dumps_members_cons. apply Forall_app. split; [apply encode_string_printable|].
    apply Forall_app. split; [repeat constructor; lit|].
    apply Forall_app. split; [exact (IH x Hx)|].
    apply sep_printable, (IHl r Hr).
Qed.

End AsciiFacts.



(** ** Instances of the further properties *)

Lemma upload_accepted_extension_witness :
  upload_accepted (s_ "talk" ++ "."%char :: s_ "MP3") 1000 = true.
Proof.
  assert (H1 : ~ In "/"%char (s_ "talk")) by (intros H; vm_compute in H; intuition discriminate).
  assert (H2 : ~ In "/"%char (s_ "MP3")) by (intros H; vm_compute in H; intuition discriminate).
  assert (H3 : ~ In "."%char (s_ "MP3")) by (intros H; vm_compute in H; intuition discriminate).
  assert (H4 : exists c, In c (s_ "talk") /\ c <> "."%char)
    by (exists "t"%char; split; [left; reflexivity | discriminate]).
  rewrite (upload_accepted_extension (s_ "talk") (s_ "MP3") 1000 H1 H2 H3 H4).
  vm_compute. reflexivity.
Defined.

Lemma upload_without_extension_refused_witness :
  upload_accepted (s_ ".wav") 1000 = false.
Proof.
  apply (upload_without_extension_refused (s_ ".wav") 1000).
  right. exists [], (s_ "wav").
  split; [reflexivity|]. split; [constructor|].
  repeat split; intros H; vm_compute in H; intuition discriminate.
Defined.

Lemma create_transcript_then_get_witness :
  Db.create_transcript (s_ "id1") (s_ "now") (s_ "b.mp3") (s_ "base") (s_ "processing")
    (sample_store true None) = (Err IntegrityError, sample_store true None).
Proof.
  assert (Hup : Db.up (sample_store true None) = true) by reflexivity.
  assert (Hin : Db.rows (sample_store true None) !! s_ "id1" <> None)
    by (intros H; vm_compute in H; discriminate H).
  exact (proj2 (create_transcript_then_get (s_ "id1") (s_ "now") (s_ "b.mp3") (s_ "base")
                  (s_ "processing") (sample_store true None) Hup) Hin).
Defined.

Lemma delete_endpoint_then_get_witness :
  let '(res, w1) := Main.delete_transcript (s_ "id1") (sample_world true None) in
  res = Ok (s_ "deleted") /\ Main.get_transcript (s_ "id1") w1 = (Err (HTTPException 404), w1).
Proof.
  assert (Hup : Db.up (store (sample_world true None)) = true) by reflexivity.
  assert (Hr : Db.rows (store (sample_world true None)) !! s_ "id1" = Some (sample_row None))
    by (vm_compute; reflexivity).
  pose proof (delete_endpoint_then_get (s_ "id1") (sample_world true None) (sample_row None) Hup Hr)
    as W.
  destruct (Main.delete_transcript _ _) as [res w1].
  destruct W as (H1 & H2 & _). split; assumption.
Defined.

Lemma rename_endpoint_witness :
  fst (Main.update_transcript (s_ "id1") (s_ "Standup") (sample_world true None)) = Ok (s_ "updated").
Proof.
  assert (Hup : Db.up (store (sample_world true None)) = true) by reflexivity.
  assert (Hr : Db.rows (store (sample_world true None)) !! s_ "id1" = Some (sample_row None))
    by (vm_compute; reflexivity).
  pose proof (rename_endpoint (s_ "id1") (s_ "Standup") (sample_world true None) Hup) as W.
  rewrite Hr in W.
  destruct (Main.update_transcript _ _ _) as [res w1]. exact (proj1 W).
Defined.

Lemma list_endpoint_page_witness :
  Main.list_transcripts 0 0 (sample_world true None) = (Err (HTTPException 422), sample_world true None) /\
  snd (Main.list_transcripts 10 0 (sample_world true None)) = sample_world true None.
Proof.
  assert (Hup : Db.up (store (sample_world true None)) = true) by reflexivity.
  split.
  - apply (proj2 (list_endpoint_page 0 0 (sample_world true None) Hup)). lia.
  - assert (Hv : ((1 <= 10 <= 100)%Z /\ (0 <= 0)%Z)) by lia.
    pose proof (proj1 (list_endpoint_page 10 0 (sample_world true None) Hup) Hv) as W.
    destruct (Main.list_transcripts _ _ _) as [res w1]. exact (proj1 W).
Defined.


Lemma process_meeting_outcome_witness :
  exists resp w', process_meeting sample_env (Some (s_ "a.wav")) true true (s_ "base") (s_ "id2")
                    (s_ "now") (sample_world true None) = (Ok resp, w').
Proof.
  assert (Hup : Db.up (store (sample_world true None)) = true) by reflexivity.
  assert (Hn : Db.rows (store (sample_world true None)) !! s_ "id2" = None) by (vm_compute; reflexivity).
  assert (Hm : py_in (s_ "base") AVAILABLE_MODELS = true) by (vm_compute; reflexivity).
  destruct (process_meeting_outcome sample_env (Some (s_ "a.wav")) true (s_ "base") (s_ "id2")
              (s_ "now") (sample_world true None) Hup Hn Hm) as (resp & w' & r & H & _).
  exists resp, w'. exact H.
Defined.





Lemma run_job_single_terminal_when_store_up_witness :
  fst (_run_transcription_job sample_env (s_ "job1") (Some (s_ "id1")) false (sample_world true None))
    = Ok tt.
Proof.
  assert (Hup : Db.up (store (sample_world true None)) = true) by reflexivity.
  pose proof (run_job_single_terminal_when_store_up sample_env (s_ "job1") (Some (s_ "id1")) false
                (sample_world true None) Hup) as W.
  destruct (_run_transcription_job _ _ _ _ _) as [res w']. exact (proj1 W).
Defined.
